(** * OpenCiviWiki: the profile-image pipeline of [accounts/models.py]

    A shallow embedding of [Profile.profile_image_url],
    [Profile.profile_image_thumb_url], [Profile.save] and
    [Profile.resize_profile_image], together with the parts of Pillow, Django
    and django-imagekit they call.  The library parts are not in the
    repository: their geometry and caching rules are modelled from the
    specification and marked as such; the path and file-name rules the code
    goes through ([posixpath], Django's storage and upload names) are
    written out as those libraries have them; whatever the specification
    leaves open (the resampling kernel, the codecs, the persistence hook) is
    a field of the class [Env]. *)

From Stdlib Require Import ZArith QArith Qround Lia Lqa Ascii String.
From stdpp Require Import base strings list gmap.

Local Open Scope Z_scope.

(** ** Python results *)

(** The exceptions the pipeline can meet.  [InvalidImageError] is the
    specification's name for the refusal of degenerate dimensions; the
    source has no check of its own for them.  [IOError] stands for Python's
    [OSError] family, [FileNotFoundError] included. *)
Inductive exn :=
  | ZeroDivisionError
  | IndexError
  | ValueError
  | DecodeError
  | EncodeError
  | IOError
  | InvalidImageError
  | SuspiciousFileOperation.

Inductive result (A : Type) :=
  | Ok (a : A)
  | Raise (e : exn).
Arguments Ok {A} a.
Arguments Raise {A} e.

#[global] Instance exn_eq_dec : EqDecision exn.
Proof. solve_decision. Defined.

#[global] Instance result_ret : MRet result := @Ok.
#[global] Instance result_bind : MBind result := λ A B f r,
  match r with
  | Ok a => f a
  | Raise e => Raise e
  end.
#[global] Instance result_fmap : FMap result := λ A B f r,
  match r with
  | Ok a => Ok (f a)
  | Raise e => Raise e
  end.

(** [seq[i]]: an index past the end raises. *)
Definition getitem {A} (l : list A) (i : nat) : result A :=
  match l !! i with
  | Some a => Ok a
  | None => Raise IndexError
  end.

(** [a / b] on integers, as an exact rational in lowest terms (the source
    computes with floats; the model does not round). *)
Definition truediv (a b : Z) : result Q :=
  if decide (b = 0) then Raise ZeroDivisionError
  else Ok (Qred (inject_Z a / inject_Z b)).

(** [max(a, b)]: the first argument unless the second is larger. *)
Definition py_max (a b : Q) : Q := if Qlt_le_dec a b then b else a.

(** [round(q)]: to the nearest integer, ties to the even one. *)
Definition py_round (q : Q) : Z :=
  let f := Qfloor q in
  match (q - inject_Z f ?= 1 # 2)%Q with
  | Lt => f
  | Gt => f + 1
  | Eq => if Z.even f then f else f + 1
  end.

(** [os.path.join(a, b)] of posixpath. *)
Definition startswith_sep (s : string) : bool :=
  match s with
  | String "/"%char _ => true
  | _ => false
  end.

Fixpoint endswith_sep (s : string) : bool :=
  match s with
  | EmptyString => false
  | String "/"%char EmptyString => true
  | String _ rest => endswith_sep rest
  end.

Definition os_path_join (a b : string) : string :=
  if startswith_sep b then b
  else if bool_decide (a = "") || endswith_sep a then a +:+ b
  else a +:+ "/" +:+ b.

(** [s.split("/")] *)
Fixpoint split_sep (s : string) : list string :=
  match s with
  | EmptyString => [EmptyString]
  | String c rest =>
      if bool_decide (c = "/"%char) then EmptyString :: split_sep rest
      else
        match split_sep rest with
        | comp :: comps => String c comp :: comps
        | [] => [String c EmptyString]
        end
  end.

(** ["/".join(comps)] *)
Fixpoint join_sep (comps : list string) : string :=
  match comps with
  | [] => ""
  | comp :: rest =>
      match rest with
      | [] => comp
      | _ :: _ => comp +:+ "/" +:+ join_sep rest
      end
  end.

(** [os.path.basename(p)]: what follows the last slash. *)
Definition os_path_basename (p : string) : string :=
  default "" (last (split_sep p)).

(** [s.rstrip("/")] *)
Fixpoint rstrip_sep (s : string) : string :=
  match s with
  | EmptyString => EmptyString
  | String c rest =>
      let r := rstrip_sep rest in
      if bool_decide (c = "/"%char) && bool_decide (r = "") then ""
      else String c r
  end.

(** [os.path.dirname(p)]: what precedes the last slash, without trailing
    slashes unless it consists of slashes only. *)
Definition os_path_dirname (p : string) : string :=
  let comps := split_sep p in
  match comps with
  | [] | [_] => ""
  | _ :: _ :: _ =>
      let head := join_sep (take (length comps - 1) comps) +:+ "/" in
      if bool_decide (rstrip_sep head = "") then head else rstrip_sep head
  end.

(** [os.path.normpath(path)] of posixpath: empty and [.] components are
    dropped, [..] climbs, one or two leading slashes are kept. *)
Definition normpath (path : string) : string :=
  if bool_decide (path = "") then "."
  else
    let initial_slashes : nat :=
      if startswith_sep path then
        if String.prefix "//" path && negb (String.prefix "///" path)
        then 2%nat else 1%nat
      else 0%nat in
    let step (new_comps : list string) (comp : string) : list string :=
      if bool_decide (comp = "" ∨ comp = ".") then new_comps
      else if bool_decide (comp ≠ "..")
              || (bool_decide (initial_slashes = 0%nat)
                  && bool_decide (new_comps = []))
              || bool_decide (head new_comps = Some "..")
      then comp :: new_comps
      else tail new_comps in
    let comps := reverse (foldl step [] (split_sep path)) in
    let path' :=
      String.concat "" (replicate initial_slashes "/") +:+ join_sep comps in
    if bool_decide (path' = "") then "." else path'.

(** [s.rfind(c)]: the last index of [c] in [s], or -1. *)
Fixpoint str_rfind_from (c : ascii) (s : string) (i found : Z) : Z :=
  match s with
  | EmptyString => found
  | String c' rest =>
      str_rfind_from c rest (i + 1) (if bool_decide (c' = c) then i else found)
  end.

Definition str_rfind (c : ascii) (s : string) : Z := str_rfind_from c s 0 (-1).

Fixpoint str_all (P : ascii → bool) (s : string) : bool :=
  match s with
  | EmptyString => true
  | String c rest => P c && str_all P rest
  end.

(** [s[:n]] and [s[n:]] *)
Definition str_take (n : nat) (s : string) : string := String.substring 0 n s.

Definition str_drop (n : nat) (s : string) : string :=
  String.substring n (String.length s - n) s.

(** [os.path.splitext(p)]: split at the last dot of the last component,
    unless only dots precede it there. *)
Definition os_path_splitext (p : string) : string * string :=
  let sepIndex := str_rfind "/" p in
  let dotIndex := str_rfind "." p in
  if (sepIndex <? dotIndex)
     && negb (str_all (λ c, bool_decide (c = "."%char))
                (String.substring (Z.to_nat (sepIndex + 1))
                   (Z.to_nat (dotIndex - (sepIndex + 1))) p))
  then (str_take (Z.to_nat dotIndex) p, str_drop (Z.to_nat dotIndex) p)
  else (p, "").

(** ** Pixel buffers *)

Abbreviation bytes := (list Byte.byte).

(** One channel of a raster: [height] rows of [width] samples in 0..255. *)
Abbreviation band := (list (list Z)).

(** A decoded image: Pillow's [mode] string, [size = (width, height)] and one
    band per channel, in the order of [getbands()]. *)
Record Image := {
  im_mode : string;
  im_size : Z * Z;
  im_bands : list band
}.

(** [Image.ANTIALIAS] and its siblings. *)
Inductive Resampling := NEAREST | ANTIALIAS | BILINEAR | BICUBIC.

Definition wf_band (w h : Z) (b : band) : Prop :=
  length b = Z.to_nat h ∧ Forall (λ row, length row = Z.to_nat w) b.

Definition wf_image (im : Image) : Prop :=
  0 ≤ (im_size im).1 ∧ 0 ≤ (im_size im).2 ∧
  Forall (wf_band (im_size im).1 (im_size im).2) (im_bands im).

(** Modelled from the spec: Pillow's standard modes and their bands,
    [Image.getbands()]: grayscale, RGB and RGBA, and the palette and other
    alpha-bearing modes the design notes mention. *)
Definition Image_getbands (mode : string) : option (list string) :=
  if decide (mode = "1") then Some ["1"]
  else if decide (mode = "L") then Some ["L"]
  else if decide (mode = "P") then Some ["P"]
  else if decide (mode = "I") then Some ["I"]
  else if decide (mode = "F") then Some ["F"]
  else if decide (mode = "LA") then Some ["L"; "A"]
  else if decide (mode = "PA") then Some ["P"; "A"]
  else if decide (mode = "RGB") then Some ["R"; "G"; "B"]
  else if decide (mode = "YCbCr") then Some ["Y"; "Cb"; "Cr"]
  else if decide (mode = "LAB") then Some ["L"; "A"; "B"]
  else if decide (mode = "HSV") then Some ["H"; "S"; "V"]
  else if decide (mode = "RGBA") then Some ["R"; "G"; "B"; "A"]
  else if decide (mode = "CMYK") then Some ["C"; "M"; "Y"; "K"]
  else None.

(** A valid source image: a raster of positive dimensions in a standard
    mode, with one band per channel of the mode. *)
Definition valid_image (im : Image) : Prop :=
  wf_image im ∧ 0 < (im_size im).1 ∧ 0 < (im_size im).2 ∧
  length <$> Image_getbands (im_mode im) = Some (length (im_bands im)).

(** The standard modes that carry an alpha channel. *)
Definition has_alpha (mode : string) : Prop :=
  mode = "LA" ∨ mode = "PA" ∨ mode = "RGBA".

(** The sample at column [x], row [y]; 0 outside the raster. *)
Definition sample (b : band) (x y : nat) : Z :=
  default 0 (b !! y ≫= (.!! x)).

(** ** Django values *)

(** An [InMemoryUploadedFile] object: its attributes.  [up_name] is the
    name as the object holds it, after the name setter below. *)
Record InMemoryUploadedFile := {
  up_file : bytes;
  up_field_name : string;
  up_name : string;
  up_content_type : string;
  up_size : Z;
  up_charset : option string
}.

(** [validate_file_name(name)] of [django.core.files.utils]: names from
    which no file name can be derived, and names with path elements, are
    refused. *)
Definition validate_file_name (name : string) : result string :=
  if bool_decide (os_path_basename name ∈ [""; "."; ".."])
  then Raise SuspiciousFileOperation
  else if bool_decide (name ≠ os_path_basename name)
  then Raise SuspiciousFileOperation
  else Ok name.

(** The name setter of Django's [UploadedFile], which the constructor
    goes through: only the base name is kept, cut to 255 characters with its
    extension, and validated. *)
Definition UploadedFile_set_name (name : string) : result string :=
  let name := os_path_basename name in
  let name :=
    if (255 <? String.length name)%nat then
      let '(root, ext) := os_path_splitext name in
      let ext := str_take 255 ext in
      str_take (255 - String.length ext) root +:+ ext
    else name in
  validate_file_name name.

(** [InMemoryUploadedFile(file, field_name, name, content_type, size,
    charset)], the constructor call. *)
Definition InMemoryUploadedFile_new (file : bytes) (field_name name
    content_type : string) (size : Z) (charset : option string)
    : result InMemoryUploadedFile :=
  name ← UploadedFile_set_name name;
  mret {| up_file := file;
          up_field_name := field_name;
          up_name := name;
          up_content_type := content_type;
          up_size := size;
          up_charset := charset |}.

(** The value of an image field: a file committed to storage, known by its
    name, or an upload still in memory. *)
Inductive FieldFile :=
  | Stored (name : string)
  | Uploaded (f : InMemoryUploadedFile).

Definition FieldFile_name (f : FieldFile) : string :=
  match f with
  | Stored n => n
  | Uploaded u => up_name u
  end.

(** [bool(field_file)]: the name is set and not empty. *)
Definition FieldFile_bool (f : option FieldFile) : bool :=
  match f with
  | Some f => bool_decide (FieldFile_name f ≠ "")
  | None => false
  end.

Record User := { username : string }.

Record Profile := {
  user : User;
  first_name : string;
  last_name : string;
  about_me : string;
  is_verified : bool;
  profile_image : option FieldFile
}.

(** What outlives a request: the storage collaborator's files by path, and
    the image column of the profile table by user name. *)
Record Persisted := {
  files : gmap string bytes;
  rows : gmap string string
}.

(** ** The environment *)

(** Settings, and the library behaviour that neither the source nor the
    specification fixes. *)
Class Env := {
  (** [settings.MEDIA_ROOT] *)
  MEDIA_ROOT : string;
  (** [os.getcwd()] *)
  getcwd : string;
  (** [settings.PROFILE_IMG["SIZE"]] *)
  PROFILE_IMG_SIZE : Z * Z;
  (** [settings.PROFILE_IMG["THUMB_SIZE"]] *)
  PROFILE_IMG_THUMB_SIZE : Z * Z;
  (** [settings.PROFILE_IMG["WHITE_BG"]] *)
  PROFILE_IMG_WHITE_BG : Z * Z * Z;
  (** The resampling kernel: the value of the output sample at column [x],
      row [y] when a band of size [src] is resampled to size [dst]. *)
  resample : Resampling → band → Z * Z → Z * Z → nat → nat → Z;
  (** [im.convert(mode)] *)
  Image_convert : string → Image → Image;
  (** The decoder behind [Image.open]. *)
  decode : bytes → result Image;
  (** The encoder behind [im.save(buf, "JPEG", quality=q)]. *)
  encode_jpeg : Image → Z → result bytes;
  (** [im.tell()] *)
  Image_tell : Image → Z;
  (** [storage.url(name)] *)
  storage_url : string → string;
  (** django-imagekit's name of the cache file of a source and a size. *)
  cachefile_name : string → Z * Z → string;
  (** [models.Model.save]: writes the record through the storage and the
      database; it may leave changes behind even when it raises. *)
  Model_save : Profile → Persisted → result Profile * Persisted
}.

(** ** Pillow operations *)

Section Pillow.
Context {E : Env}.

(** Modelled from the spec: [im.resize(size, method)] of Pillow, the resize
    of step 2: every band is resampled to the requested size; the kernel
    decides the sample values only. *)
Definition resample_band (method : Resampling) (src dst : Z * Z) (b : band)
    : band :=
  (λ y, (λ x, resample method b src dst x y) <$> seq 0 (Z.to_nat dst.1))
    <$> seq 0 (Z.to_nat dst.2).

Definition Image_resize (im : Image) (size : Z * Z) (method : Resampling)
    : Image :=
  {| im_mode := im_mode im;
     im_size := size;
     im_bands := resample_band method (im_size im) size <$> im_bands im |}.

(** Modelled from the spec: [im.crop((x0, y0, x1, y1))] of Pillow, the crop
    of step 3, for a box inside the image. *)
Definition crop_band (x0 y0 x1 y1 : Z) (b : band) : band :=
  (λ row, take (Z.to_nat (x1 - x0)) (drop (Z.to_nat x0) row))
    <$> take (Z.to_nat (y1 - y0)) (drop (Z.to_nat y0) b).

Definition Image_crop (im : Image) (box : Z * Z * Z * Z) : Image :=
  let '(x0, y0, x1, y1) := box in
  {| im_mode := im_mode im;
     im_size := (x1 - x0, y1 - y0);
     im_bands := crop_band x0 y0 x1 y1 <$> im_bands im |}.

(** Modelled from the spec: the scale factor of [ImageOps.fit] (Pillow, not
    part of the repository), step 1 of the fit-crop algorithm:
    [s = max(tw / w, th / h)]; a source of zero width or height fails with
    InvalidImageError before any resize. *)
Definition fit_scale (src dst : Z * Z) : result Q :=
  if decide (src.1 = 0 ∨ src.2 = 0) then Raise InvalidImageError
  else
    a ← truediv dst.1 src.1;
    b ← truediv dst.2 src.2;
    mret (py_max a b).

(** Modelled from the spec: step 2, the resized dimensions
    [round(w*s) x round(h*s)]. *)
Definition fit_resized (src : Z * Z) (s : Q) : Z * Z :=
  (py_round (inject_Z src.1 * s), py_round (inject_Z src.2 * s)).

(** Modelled from the spec: step 3, the crop origin
    [((resized_w - tw) * cx, (resized_h - th) * cy)] for the centering
    fraction [(cx, cy)], at whole pixels. *)
Definition fit_origin (resized dst : Z * Z) (centering : Q * Q) : Z * Z :=
  (Qfloor (inject_Z (resized.1 - dst.1) * centering.1),
   Qfloor (inject_Z (resized.2 - dst.2) * centering.2)).

(** Modelled from the spec: [ImageOps.fit(image, size, method, centering)]
    of Pillow, steps 1 to 3 of the fit-crop algorithm: scale so that the
    image covers the target box, resize, crop around the centering point. *)
Definition ImageOps_fit (im : Image) (size : Z * Z) (method : Resampling)
    (centering : Q * Q) : result Image :=
  s ← fit_scale (im_size im) size;
  let resized := Image_resize im (fit_resized (im_size im) s) method in
  let '(x0, y0) := fit_origin (im_size resized) size centering in
  mret (Image_crop resized (x0, y0, x0 + size.1, y0 + size.2)).

(** Modelled from the spec: [Image.new(mode, size, color)] of Pillow, the
    opaque canvas of one colour, for a three-band mode. *)
Definition Image_new (mode : string) (size : Z * Z) (color : Z * Z * Z)
    : Image :=
  let plane c :=
    replicate (Z.to_nat size.2) (replicate (Z.to_nat size.1) c) in
  let '(r, g, b) := color in
  {| im_mode := mode; im_size := size; im_bands := [plane r; plane g; plane b] |}.

(** Modelled from the spec: [im.split()] of Pillow: one single-band image
    per channel, in the order of the bands. *)
Definition Image_split (im : Image) : list Image :=
  (λ b, {| im_mode := "L"; im_size := im_size im; im_bands := [b] |})
    <$> im_bands im.

(** Modelled from the spec: the blend of one sample through a mask value:
    mask 0 keeps the canvas, mask 255 takes the pasted image. *)
Definition blend (dst src mask : Z) : Z :=
  (dst * (255 - mask) + src * mask) / 255.

Definition paste_band (dst src mask : band) : band :=
  imap (λ y row, imap (λ x d, blend d (sample src x y) (sample mask x y)) row)
    dst.

(** Modelled from the spec: [canvas.paste(im, mask=mask)] of Pillow: [im],
    converted to the canvas mode when its mode differs, is composited over
    the whole canvas through the single-band [mask]; the sizes must agree.
    The canvas, which Pillow updates in place, is returned. *)
Definition Image_paste (canvas im mask : Image) : result Image :=
  if decide (im_size im = im_size canvas ∧ im_size mask = im_size canvas) then
    let im' :=
      if decide (im_mode im = im_mode canvas) then im
      else Image_convert (im_mode canvas) im in
    Ok {| im_mode := im_mode canvas;
          im_size := im_size canvas;
          im_bands :=
            imap (λ i d, paste_band d (default [] (im_bands im' !! i))
                           (default [] (im_bands mask !! 0%nat)))
              (im_bands canvas) |}
  else Raise ValueError.

(** A kernel that reproduces the samples of a band when it is resampled to
    the band's own size, as interpolating filters do. *)
Definition interpolating (method : Resampling) : Prop :=
  ∀ (b : band) (size : Z * Z) (x y : nat),
    wf_band size.1 size.2 b →
    (x < Z.to_nat size.1)%nat → (y < Z.to_nat size.2)%nat →
    resample method b size size x y = sample b x y.

End Pillow.

(** ** The world a request runs in *)

(** The library calls of the pipeline, in the order they are made. *)
Inductive Call :=
  | Call_Image_open (f : option FieldFile)
  | Call_ImageOps_fit (im : Image) (size : Z * Z) (method : Resampling)
      (centering : Q * Q)
  | Call_Image_paste (canvas im mask : Image)
  | Call_Image_save (im : Image) (format : string) (quality : Z)
  | Call_Model_save (this : Profile).

Definition is_Model_save (c : Call) : bool :=
  match c with
  | Call_Model_save _ => true
  | _ => false
  end.

Record World := {
  self : Profile;
  persisted : Persisted;
  calls : list Call
}.

(** Statements run on the world and either return or raise; a raise keeps
    the world as it was when raised. *)
Definition M (A : Type) : Type := World → result A * World.

Definition M_ret {A} (a : A) : M A := λ w, (Ok a, w).

Definition M_bind {A B} (m : M A) (k : A → M B) : M B := λ w,
  match m w with
  | (Ok a, w') => k a w'
  | (Raise e, w') => (Raise e, w')
  end.

Notation "x <~ m ;; k" := (M_bind m (λ x, k))
  (at level 100, m at next level, right associativity).
Notation "m ;;; k" := (M_bind m (λ _, k))
  (at level 100, right associativity).

(** The world after one more library call. *)
Definition record (c : Call) (w : World) : World :=
  {| self := self w; persisted := persisted w; calls := calls w ++ [c] |}.

(** A library call: recorded, then its outcome returned or raised. *)
Definition call {A} (c : Call) (r : result A) : M A := λ w, (r, record c w).

Definition get_self : M Profile := λ w, (Ok (self w), w).
Definition get_persisted : M Persisted := λ w, (Ok (persisted w), w).

(** The profile with its image field assigned; every other field stays. *)
Definition with_profile_image (this : Profile) (f : option FieldFile)
    : Profile :=
  {| user := user this;
     first_name := first_name this;
     last_name := last_name this;
     about_me := about_me this;
     is_verified := is_verified this;
     profile_image := f |}.

(** [self.profile_image = f] *)
Definition set_profile_image (f : option FieldFile) : M unit := λ w,
  (Ok (),
   {| self := with_profile_image (self w) f;
      persisted := persisted w;
      calls := calls w |}).

(** A pure step that may raise; nothing is recorded. *)
Definition lift {A} (r : result A) : M A := λ w, (r, w).

(** The storage writes [bs] at [path]. *)
Definition put_file (path : string) (bs : bytes) : M unit := λ w,
  (Ok (),
   {| self := self w;
      persisted :=
        {| files := <[path := bs]> (files (persisted w));
           rows := rows (persisted w) |};
      calls := calls w |}).

(** ** [accounts/models.py]: class [Profile] *)

Section Accounts.
Context {E : Env}.

(** [os.path.abspath(path)] *)
Definition abspath (path : string) : string :=
  normpath (if startswith_sep path then path else os_path_join getcwd path).

(** [safe_join(base, path)] of [django.utils._os]: the normalized absolute
    join, refused when it does not lie inside [base]. *)
Definition safe_join (base path : string) : result string :=
  let final_path := abspath (os_path_join base path) in
  let base_path := abspath base in
  if negb (String.prefix (base_path +:+ "/") final_path)
     && negb (bool_decide (final_path = base_path))
     && negb (bool_decide (os_path_dirname base_path = base_path))
  then Raise SuspiciousFileOperation
  else Ok final_path.

(** [default_storage.path(name)]: the file system storage rooted at
    [abspath(MEDIA_ROOT)]. *)
Definition storage_path (name : string) : result string :=
  safe_join (abspath MEDIA_ROOT) name.

(** [default_storage.exists(name)]: whether the storage holds a file at
    the path of [name]; a name that leaves the storage's root raises. *)
Definition default_storage_exists (st : Persisted) (name : string)
    : result bool :=
  path ← storage_path name;
  mret (bool_decide (is_Some (files st !! path))).

(** [field.name] and [field.url] of an image field. *)
Definition field_name (f : option FieldFile) : string :=
  from_option FieldFile_name "" f.

Definition field_url (f : option FieldFile) : string :=
  storage_url (field_name f).

(** Modelled from the spec: the storage collaborator's
    [read(path) -> bytes | IOError] behind a field: the bytes of the upload,
    or those the storage holds at the path of the field's name. *)
Definition field_read (f : option FieldFile) (st : Persisted) : result bytes :=
  match f with
  | Some (Uploaded u) => Ok (up_file u)
  | Some (Stored n) =>
      path ← storage_path n;
      match files st !! path with
      | Some bs => Ok bs
      | None => Raise IOError
      end
  | None => Raise ValueError
  end.

(** Modelled from the spec: [Image.open(field)] of Pillow: the bytes behind
    the field are decoded, and a raster whose width or height is not
    positive is refused, before anything is resized; InvalidImageError is
    the spec's name for that refusal. *)
Definition Image_open (f : option FieldFile) (st : Persisted) : result Image :=
  bs ← field_read f st;
  im ← decode bs;
  if decide (0 < (im_size im).1 ∧ 0 < (im_size im).2) then Ok im
  else Raise InvalidImageError.

(** [full_name] *)
Definition full_name (this : Profile) : string :=
  first_name this +:+ " " +:+ last_name this.

(** [profile_image_thumb]: the image spec field declared on
    [source="profile_image"] with [ResizeToFill(THUMB_SIZE)].  This is the
    handle django-imagekit gives it, for its [name] and [url]: the cache
    file of the current source, when there is a source.  Testing the field
    for truth does more; see [ImageCacheFile_bool]. *)
Definition profile_image_thumb (this : Profile) : option FieldFile :=
  if FieldFile_bool (profile_image this) then
    Some (Stored (cachefile_name (field_name (profile_image this))
                    PROFILE_IMG_THUMB_SIZE))
  else None.

(** [profile_image_url] *)
Definition profile_image_url (this : Profile) (st : Persisted)
    : result string :=
  if FieldFile_bool (profile_image this) then
    file_exists ←
      default_storage_exists st
        (os_path_join MEDIA_ROOT (field_name (profile_image this)));
    if (file_exists : bool) then Ok (field_url (profile_image this))
    else Ok "/static/img/no_image_md.png"
  else Ok "/static/img/no_image_md.png".

(** Lines 141 to 156 of [resize_profile_image]: the decoded image is fitted
    to [PROFILE_IMG["SIZE"]] and, unless its mode is ["L"] or ["RGB"], pasted
    on a canvas of [PROFILE_IMG["WHITE_BG"]] through its fourth band. *)
Definition normalize (profile_image : Image) : M Image :=
  profile_image <~
    call (Call_ImageOps_fit profile_image PROFILE_IMG_SIZE ANTIALIAS
            (1 # 2, 1 # 2)%Q)
         (ImageOps_fit profile_image PROFILE_IMG_SIZE ANTIALIAS
            (1 # 2, 1 # 2)%Q) ;;
  if bool_decide (im_mode profile_image ∉ ["L"; "RGB"]) then
    let white_bg_img :=
      Image_new "RGB" PROFILE_IMG_SIZE PROFILE_IMG_WHITE_BG in
    mask <~ lift (getitem (Image_split profile_image) 3) ;;
    call (Call_Image_paste white_bg_img profile_image mask)
         (Image_paste white_bg_img profile_image mask)
  else M_ret profile_image.

(** [resize_profile_image] *)
Definition resize_profile_image : M unit :=
  this <~ get_self ;;
  st <~ get_persisted ;;
  opened <~
    call (Call_Image_open (profile_image this))
         (Image_open (profile_image this) st) ;;
  normalized <~ normalize opened ;;
  tmp_image_file <~
    call (Call_Image_save normalized "JPEG" 90)
         (encode_jpeg normalized 90) ;;
  upload <~
    lift (InMemoryUploadedFile_new tmp_image_file "ImageField"
            (field_name (profile_image this)) "image/jpeg"
            (Image_tell normalized) None) ;;
  set_profile_image (Some (Uploaded upload)).

(** [super().save()] *)
Definition super_save : M unit := λ w,
  let w' := record (Call_Model_save (self w)) w in
  match Model_save (self w) (persisted w) with
  | (Ok this, st) =>
      (Ok (), {| self := this; persisted := st; calls := calls w' |})
  | (Raise e, st) =>
      (Raise e, {| self := self w; persisted := st; calls := calls w' |})
  end.

(** [save] *)
Definition save : M unit :=
  this <~ get_self ;;
  (if FieldFile_bool (profile_image this) then resize_profile_image
   else M_ret ()) ;;;
  super_save.

End Accounts.

(** ** The derived thumbnail and its cache *)

Section ImageKit.
Context {E : Env}.

(** The normalized asset a thumbnail is derived from: its identity token,
    its current bytes and the fingerprint of that version. *)
Record SourceAsset := {
  identity : string;
  asset_bytes : bytes;
  fingerprint : Z
}.

Record DerivationSpec := { thumb_size : Z * Z }.

Record CacheEntry := {
  entry_bytes : bytes;
  entry_fingerprint : Z
}.

(** The derivation spec behind [profile_image_thumb]:
    [ResizeToFill(THUMB_SIZE[0], THUMB_SIZE[1])]. *)
Definition profile_image_thumb_spec : DerivationSpec :=
  {| thumb_size := PROFILE_IMG_THUMB_SIZE |}.

(** Modelled from the spec: the derivation on a miss or a stale entry, which
    django-imagekit performs and the repository only declares: decode the
    normalized source, fit-crop it to the thumbnail size, encode it as JPEG
    at quality 90. *)
Definition generate (src : SourceAsset) (spec : DerivationSpec)
    : result bytes :=
  im ← decode (asset_bytes src);
  thumb ← ImageOps_fit im (thumb_size spec) ANTIALIAS (1 # 2, 1 # 2)%Q;
  encode_jpeg thumb 90.

(** Modelled from the spec: [AssetCache.invalidate(source_identity)], the
    eager purge of every entry of one source. *)
Definition invalidate (source_identity : string)
    (cache : gmap (string * (Z * Z)) CacheEntry)
    : gmap (string * (Z * Z)) CacheEntry :=
  filter (λ kv, kv.1.1 ≠ source_identity) cache.

(** Modelled from the spec: [ThumbnailDeriver.derive], which django-imagekit
    performs and the repository only declares.  A fresh entry, one whose
    recorded fingerprint is the source's current one, is returned as it is;
    otherwise the thumbnail is generated and stored under the current
    fingerprint.  The result comes with the cache after the call. *)
Definition derive (cache : gmap (string * (Z * Z)) CacheEntry)
    (src : SourceAsset) (spec : DerivationSpec)
    : result bytes * gmap (string * (Z * Z)) CacheEntry :=
  let key := (identity src, thumb_size spec) in
  let regenerate :=
    match generate src spec with
    | Ok bs =>
        (Ok bs,
         <[key := {| entry_bytes := bs;
                     entry_fingerprint := fingerprint src |}]> cache)
    | Raise e => (Raise e, cache)
    end in
  match cache !! key with
  | Some entry =>
      if decide (entry_fingerprint entry = fingerprint src)
      then (Ok (entry_bytes entry), cache)
      else regenerate
  | None => regenerate
  end.

(** Modelled from the spec: [bool(self.profile_image_thumb)], which
    django-imagekit performs: the derivation is lazy, so asking whether
    there is a thumbnail produces it on first request.  Without a source the
    answer is no.  Otherwise, unless the cache file is there already, the
    source is read (an IOError when its bytes are missing), the thumbnail
    derived from it and written to the storage; the answer is then yes. *)
Definition ImageCacheFile_bool : M bool :=
  this <~ get_self ;;
  st <~ get_persisted ;;
  let thumb := profile_image_thumb this in
  if negb (FieldFile_bool thumb) then M_ret false
  else
    cached <~ lift (default_storage_exists st (field_name thumb)) ;;
    if (cached : bool) then M_ret true
    else
      source <~ lift (field_read (profile_image this) st) ;;
      content <~
        lift (generate {| identity := field_name (profile_image this);
                          asset_bytes := source;
                          fingerprint := 0 |}
                profile_image_thumb_spec) ;;
      path <~ lift (storage_path (field_name thumb)) ;;
      put_file path content ;;;
      M_ret true.

(** [profile_image_thumb_url] *)
Definition profile_image_thumb_url : M string :=
  truthy <~ ImageCacheFile_bool ;;
  if (truthy : bool) then
    this <~ get_self ;;
    st <~ get_persisted ;;
    file_exists <~
      lift (default_storage_exists st
              (os_path_join MEDIA_ROOT
                 (field_name (profile_image_thumb this)))) ;;
    if (file_exists : bool) then M_ret (field_url (profile_image_thumb this))
    else M_ret "/static/img/no_image_md.png"
  else M_ret "/static/img/no_image_md.png".

End ImageKit.

(** ** A small environment to run the pipeline in *)

(** An uncompressed codec: a mode tag, the width, the height, then the
    samples band by band and row by row, one byte each.  [raw_decode] is the
    parser alone: it reads whatever size the header announces, zero
    included, and it is [Image_open] that refuses a size that is not
    positive.  Like the JPEG encoder, [raw_encode] writes modes ["L"] and
    ["RGB"] only. *)
Definition mode_of_tag (t : N) : option (string * nat) :=
  match t with
  | 0%N => Some ("L", 1%nat)
  | 1%N => Some ("RGB", 3%nat)
  | 2%N => Some ("RGBA", 4%nat)
  | 3%N => Some ("LA", 2%nat)
  | _ => None
  end.

Definition tag_of_mode (m : string) : option Byte.byte :=
  if decide (m = "L") then Some Byte.x00
  else if decide (m = "RGB") then Some Byte.x01
  else None.

Definition byte_of_Z (z : Z) : Byte.byte :=
  default Byte.x00 (Byte.of_N (Z.to_N z)).

Definition Z_of_byte (b : Byte.byte) : Z := Z.of_N (Byte.to_N b).

Fixpoint chunks {A} (n count : nat) (l : list A) : list (list A) :=
  match count with
  | O => []
  | S c => take n l :: chunks n c (drop n l)
  end.

Definition raw_decode (bs : bytes) : result Image :=
  match bs with
  | t :: w :: h :: data =>
      match mode_of_tag (Byte.to_N t) with
      | Some (m, nb) =>
          let w' := N.to_nat (Byte.to_N w) in
          let h' := N.to_nat (Byte.to_N h) in
          if decide (length data = (nb * (w' * h'))%nat) then
            Ok {| im_mode := m;
                  im_size := (Z.of_nat w', Z.of_nat h');
                  im_bands :=
                    chunks w' h' <$> chunks (w' * h') nb (Z_of_byte <$> data) |}
          else Raise DecodeError
      | None => Raise DecodeError
      end
  | _ => Raise DecodeError
  end.

Definition raw_encode (im : Image) (quality : Z) : result bytes :=
  match tag_of_mode (im_mode im) with
  | Some t =>
      Ok (t :: byte_of_Z (im_size im).1 :: byte_of_Z (im_size im).2
            :: (byte_of_Z <$> concat (concat (im_bands im))))
  | None => Raise EncodeError
  end.

(** Nearest-neighbour sampling, whatever the method asked for. *)
Definition nearest (method : Resampling) (b : band) (src dst : Z * Z)
    (x y : nat) : Z :=
  sample b (Z.to_nat (Z.of_nat x * src.1 / dst.1))
           (Z.to_nat (Z.of_nat y * src.2 / dst.2)).

(** Conversion by keeping, or repeating, the leading bands. *)
Definition leading_bands (mode : string) (im : Image) : Image :=
  {| im_mode := mode;
     im_size := im_size im;
     im_bands := take 3 (im_bands im ++ im_bands im ++ im_bands im) |}.

(** A persistence hook that commits an upload under [profile_uploads/] and
    records the stored name. *)
Definition commit_upload (this : Profile) (st : Persisted)
    : result Profile * Persisted :=
  match profile_image this with
  | Some (Uploaded u) =>
      let n := "profile_uploads/" +:+ up_name u in
      (Ok {| user := user this;
             first_name := first_name this;
             last_name := last_name this;
             about_me := about_me this;
             is_verified := is_verified this;
             profile_image := Some (Stored n) |},
       {| files := <[os_path_join "/media" n := up_file u]> (files st);
          rows := <[username (user this) := n]> (rows st) |})
  | Some (Stored n) =>
      (Ok this,
       {| files := files st;
          rows := <[username (user this) := n]> (rows st) |})
  | None =>
      (Ok this,
       {| files := files st;
          rows := <[username (user this) := ""]> (rows st) |})
  end.

Definition small_env : Env :=
  {| MEDIA_ROOT := "/media";
     getcwd := "/srv/app";
     PROFILE_IMG_SIZE := (2, 2);
     PROFILE_IMG_THUMB_SIZE := (1, 1);
     PROFILE_IMG_WHITE_BG := (255, 255, 255);
     resample := nearest;
     Image_convert := leading_bands;
     decode := raw_decode;
     encode_jpeg := raw_encode;
     Image_tell := λ _, 0;
     storage_url := λ n, "/media/" +:+ n;
     cachefile_name := λ n sz, "CACHE/" +:+ n;
     Model_save := commit_upload |}.

(** Concrete images and worlds. *)
Definition gray_4x2 : Image :=
  {| im_mode := "L"; im_size := (4, 2);
     im_bands := [[[10; 20; 30; 40]; [50; 60; 70; 80]]] |}.

Definition rgb_2x2 : Image :=
  {| im_mode := "RGB"; im_size := (2, 2);
     im_bands := [[[1; 2]; [3; 4]]; [[5; 6]; [7; 8]]; [[9; 10]; [11; 12]]] |}.

Definition rgba_2x2 : Image :=
  {| im_mode := "RGBA"; im_size := (2, 2);
     im_bands := [[[1; 2]; [3; 4]]; [[5; 6]; [7; 8]]; [[9; 10]; [11; 12]];
                  [[0; 255]; [128; 0]]] |}.

Definition la_1x1 : Image :=
  {| im_mode := "LA"; im_size := (1, 1); im_bands := [[[7]]; [[0]]] |}.

Definition rgb_0x3 : Image :=
  {| im_mode := "RGB"; im_size := (0, 3);
     im_bands := [[[]; []; []]; [[]; []; []]; [[]; []; []]] |}.

Definition no_files : Persisted := {| files := ∅; rows := ∅ |}.

Definition upload_of (name : string) (bs : bytes) : option FieldFile :=
  Some (Uploaded {| up_file := bs; up_field_name := "profile_image";
                    up_name := name; up_content_type := "image/png";
                    up_size := Z.of_nat (length bs); up_charset := None |}).

Definition alice (image : option FieldFile) : Profile :=
  {| user := {| username := "alice" |};
     first_name := "Alice"; last_name := "Liddell"; about_me := "";
     is_verified := false; profile_image := image |}.

Definition world_of (this : Profile) (st : Persisted) : World :=
  {| self := this; persisted := st; calls := [] |}.

(** The bytes of [gray_4x2] in the uncompressed codec. *)
Definition gray_4x2_bytes : bytes :=
  [Byte.x00; Byte.x04; Byte.x02;
   Byte.x0a; Byte.x14; Byte.x1e; Byte.x28; Byte.x32; Byte.x3c; Byte.x46; Byte.x50].

(** The header of a wider image with no samples behind it. *)
Definition truncated_bytes : bytes := [Byte.x01; Byte.x04; Byte.x02; Byte.x0a].

(** The bytes of [rgb_0x3]: an RGB image of width 0 and height 3. *)
Definition rgb_0x3_bytes : bytes := [Byte.x01; Byte.x00; Byte.x03].

(** The bytes of [rgb_2x2]. *)
Definition rgb_2x2_bytes : bytes :=
  [Byte.x01; Byte.x02; Byte.x02;
   Byte.x01; Byte.x02; Byte.x03; Byte.x04;
   Byte.x05; Byte.x06; Byte.x07; Byte.x08;
   Byte.x09; Byte.x0a; Byte.x0b; Byte.x0c].

(** The world after a first [save] of an upload of [gray_4x2]. *)
Definition saved_once : World :=
  (save (E := small_env)
     (world_of (alice (upload_of "a.png" gray_4x2_bytes)) no_files)).2.

(** A normalized asset in its second version, and a cache that still holds
    the thumbnail of the first. *)
Definition second_version : SourceAsset :=
  {| identity := "profile_uploads/a.png";
     asset_bytes := gray_4x2_bytes;
     fingerprint := 2 |}.

Definition first_version_entry : CacheEntry :=
  {| entry_bytes := [Byte.x00; Byte.x01; Byte.x01; Byte.xff];
     entry_fingerprint := 1 |}.

Definition cache_of_first_version : gmap (string * (Z * Z)) CacheEntry :=
  {[ ("profile_uploads/a.png", (1, 1)) := first_version_entry ]}.

(** ** The display strings of [accounts/models.py] *)

(** [User.__str__] *)
Definition User_str (u : User) : string := username u.

(** [Profile.__str__] *)
Definition Profile_str (this : Profile) : string :=
  username (user this) +:+ " profile".

(** [c in s] for a character. *)
Fixpoint contains_char (c : ascii) (s : string) : bool :=
  match s with
  | EmptyString => false
  | String c' rest => bool_decide (c' = c) || contains_char c rest
  end.

(** ** [notification/models.py] *)

(** [c.upper()] and [c.lower()] on ASCII characters. *)
Definition ascii_upper (c : ascii) : ascii :=
  let n := N_of_ascii c in
  if ((97 <=? n) && (n <=? 122))%N then ascii_of_N (n - 32) else c.

Definition ascii_lower (c : ascii) : ascii :=
  let n := N_of_ascii c in
  if ((65 <=? n) && (n <=? 90))%N then ascii_of_N (n + 32) else c.

Fixpoint str_map (f : ascii → ascii) (s : string) : string :=
  match s with
  | EmptyString => EmptyString
  | String c rest => String (f c) (str_map f rest)
  end.

(** [s.isascii()]: the strings on which the two functions above are
    Python's. *)
Fixpoint str_isascii (s : string) : bool :=
  match s with
  | EmptyString => true
  | String c rest => (N_of_ascii c <? 128)%N && str_isascii rest
  end.

(** [s.capitalize()]: the first character in upper case, the others in
    lower case. *)
Definition str_capitalize (s : string) : string :=
  match s with
  | EmptyString => EmptyString
  | String c rest => String (ascii_upper c) (str_map ascii_lower rest)
  end.

(** [s.replace(old, new)] for one-character [old] and [new]. *)
Definition str_replace_char (old new : ascii) (s : string) : string :=
  str_map (λ c, if bool_decide (c = old) then new else c) s.

(** [class ActivityType(Enum)] *)
Inductive ActivityType :=
  | NEW_FOLLOWER
  | RESPONSE_TO_CIVI
  | REBUTTAL_TO_RESPONSE.

#[global] Instance ActivityType_eq_dec : EqDecision ActivityType.
Proof. solve_decision. Defined.

(** [tag.name] *)
Definition ActivityType_name (tag : ActivityType) : string :=
  match tag with
  | NEW_FOLLOWER => "NEW_FOLLOWER"
  | RESPONSE_TO_CIVI => "RESPONSE_TO_CIVI"
  | REBUTTAL_TO_RESPONSE => "REBUTTAL_TO_RESPONSE"
  end.

(** [tag.value] *)
Definition ActivityType_value (tag : ActivityType) : string :=
  match tag with
  | NEW_FOLLOWER => "new_follower"
  | RESPONSE_TO_CIVI => "response_to_your_civi"
  | REBUTTAL_TO_RESPONSE => "rebuttal_to_your_response"
  end.

(** The label of a choice: [name.replace("_", " ").capitalize()]. *)
Definition choice_label (name : string) : string :=
  str_capitalize (str_replace_char "_" " " name).

(** [activity_CHOICES]: one pair per member of the enumeration, in the
    order of declaration. *)
Definition activity_CHOICES : list (string * string) :=
  (λ tag, (ActivityType_value tag, choice_label (ActivityType_name tag)))
    <$> [NEW_FOLLOWER; RESPONSE_TO_CIVI; REBUTTAL_TO_RESPONSE].

(** [max_length] and [default] of the [activity_type] column. *)
Definition activity_type_max_length : nat := 31.

Definition activity_type_default : string := ActivityType_value NEW_FOLLOWER.

(** [class Notification]; the thread and the civi, whose models are in
    another application, are known by their keys. *)
Record Notification := {
  account : option Profile;
  thread : option Z;
  civi : option Z;
  activity_type : string;
  read : bool
}.

(** [str(x)] of a nullable profile inside an f-string. *)
Definition str_of_account (a : option Profile) : string :=
  match a with
  | Some p => Profile_str p
  | None => "None"
  end.

(** [Notification.__str__] *)
Definition Notification_str (n : Notification) : string :=
  "Notification(" +:+ str_of_account (account n) +:+ ", "
    +:+ activity_type n +:+ ")".

(** ** More concrete worlds *)


(** [rgba_2x2] composited over white, and the centre of [gray_4x2]. *)
Definition rgba_2x2_on_white : Image :=
  {| im_mode := "RGB"; im_size := (2, 2);
     im_bands := [[[255; 2]; [128; 255]]; [[255; 6]; [130; 255]];
                  [[255; 10]; [132; 255]]] |}.

Definition gray_4x2_centre : Image :=
  {| im_mode := "L"; im_size := (2, 2); im_bands := [[[20; 30]; [60; 70]]] |}.

(** The bytes of [rgba_2x2]. *)
Definition rgba_2x2_bytes : bytes :=
  [Byte.x02; Byte.x02; Byte.x02;
   Byte.x01; Byte.x02; Byte.x03; Byte.x04;
   Byte.x05; Byte.x06; Byte.x07; Byte.x08;
   Byte.x09; Byte.x0a; Byte.x0b; Byte.x0c;
   Byte.x00; Byte.xff; Byte.x80; Byte.x00].

(** * Properties *)

(** ** Arithmetic of the fit *)

Lemma py_max_ge_l (a b : Q) : (a <= py_max a b)%Q.
Proof.
  unfold py_max. destruct (Qlt_le_dec a b) as [Hlt | Hle].
  - apply Qlt_le_weak, Hlt.
  - apply Qle_refl.
Qed.

Lemma py_max_ge_r (a b : Q) : (b <= py_max a b)%Q.
Proof.
  unfold py_max. destruct (Qlt_le_dec a b) as [Hlt | Hle].
  - apply Qle_refl.
  - exact Hle.
Qed.

Lemma py_max_cases (a b : Q) : py_max a b = a ∨ py_max a b = b.
Proof. unfold py_max. destruct (Qlt_le_dec a b); auto. Qed.

Lemma py_round_floor (q : Q) : Qfloor q ≤ py_round q.
Proof.
  unfold py_round.
  destruct (q - inject_Z (Qfloor q) ?= 1 # 2)%Q; [destruct (Z.even _) | |]; lia.
Qed.

Lemma py_round_ge (q : Q) (n : Z) : (inject_Z n <= q)%Q → n ≤ py_round q.
Proof.
  intros Hle. etrans; [| apply py_round_floor].
  rewrite <- (Qfloor_Z n). apply Qfloor_resp_le, Hle.
Qed.

Lemma py_round_proper (q q' : Q) : (q == q')%Q → py_round q = py_round q'.
Proof.
  intros Heq. unfold py_round.
  rewrite (Qfloor_comp _ _ Heq).
  assert (q - inject_Z (Qfloor q') == q' - inject_Z (Qfloor q'))%Q as Hsub
    by (rewrite Heq; reflexivity).
  rewrite (Qcompare_comp _ _ Hsub (1 # 2) (1 # 2) (Qeq_refl _)).
  reflexivity.
Qed.

Lemma py_round_inject_Z (n : Z) : py_round (inject_Z n) = n.
Proof.
  unfold py_round. rewrite Qfloor_Z.
  assert ((inject_Z n - inject_Z n ?= 1 # 2)%Q = Lt) as ->; [| reflexivity].
  apply (proj1 (Qlt_alt _ _)). lra.
Qed.

Lemma Qfloor_half (d : Z) : Qfloor (inject_Z d * (1 # 2)) = d / 2.
Proof. unfold Qfloor, inject_Z, Qmult. simpl. by rewrite Z.mul_1_r. Qed.

Lemma scale_covers (w t : Z) (s : Q) :
  0 < w → (Qred (inject_Z t / inject_Z w) <= s)%Q →
  (inject_Z t <= inject_Z w * s)%Q.
Proof.
  intros Hw Hs. rewrite Qred_correct in Hs.
  assert (0 < inject_Z w)%Q as Hpos by (change (inject_Z 0 < inject_Z w)%Q; rewrite <- Zlt_Qlt; exact Hw).
  assert (inject_Z t == inject_Z w * (inject_Z t / inject_Z w))%Q as ->.
  { field. intros Hz. rewrite Hz in Hpos. by apply Qlt_irrefl in Hpos. }
  apply Qmult_le_l; [exact Hpos | exact Hs].
Qed.

Lemma fit_scale_positive (src dst : Z * Z) :
  0 < src.1 → 0 < src.2 →
  fit_scale src dst
  = Ok (py_max (Qred (inject_Z dst.1 / inject_Z src.1))
               (Qred (inject_Z dst.2 / inject_Z src.2))).
Proof.
  intros Hw Hh. unfold fit_scale, truediv.
  rewrite decide_False by lia.
  destruct (decide (src.1 = 0)); [lia |].
  destruct (decide (src.2 = 0)); [lia |]. reflexivity.
Qed.

Lemma fit_resized_covers (src dst : Z * Z) (s : Q) :
  0 < src.1 → 0 < src.2 → fit_scale src dst = Ok s →
  dst.1 ≤ (fit_resized src s).1 ∧ dst.2 ≤ (fit_resized src s).2.
Proof.
  intros Hw Hh. rewrite fit_scale_positive by done. intros [= <-].
  unfold fit_resized. cbn [fst snd].
  split; apply py_round_ge, scale_covers; try done.
  - apply py_max_ge_l.
  - apply py_max_ge_r.
Qed.

(** ** Shapes of bands *)

Section Shapes.
Context {E : Env}.

Lemma resample_band_wf method src dst b :
  wf_band dst.1 dst.2 (resample_band method src dst b).
Proof.
  unfold wf_band, resample_band. split.
  - by rewrite length_fmap, length_seq.
  - apply Forall_fmap, Forall_forall. intros y _. simpl.
    by rewrite length_fmap, length_seq.
Qed.

Lemma Image_resize_wf im size method :
  0 ≤ size.1 → 0 ≤ size.2 → wf_image (Image_resize im size method).
Proof.
  intros Hw Hh. unfold wf_image, Image_resize. simpl.
  repeat split; [done | done |].
  apply Forall_fmap, Forall_forall. intros b _. apply resample_band_wf.
Qed.

Lemma crop_band_wf w h x0 y0 tw th b :
  wf_band w h b → 0 ≤ x0 → 0 ≤ y0 → 0 ≤ tw → 0 ≤ th →
  x0 + tw ≤ w → y0 + th ≤ h →
  wf_band tw th (crop_band x0 y0 (x0 + tw) (y0 + th) b).
Proof.
  intros [Hlen Hrows] Hx Hy Htw Hth Hxw Hyh. unfold wf_band, crop_band.
  split.
  - rewrite length_fmap, length_take, length_drop, Hlen. lia.
  - apply Forall_fmap, Forall_take, Forall_drop.
    eapply Forall_impl; [exact Hrows |]. intros row Hrow. simpl.
    rewrite length_take, length_drop, Hrow. lia.
Qed.

Lemma Image_crop_wf im x0 y0 tw th :
  wf_image im → 0 ≤ x0 → 0 ≤ y0 → 0 ≤ tw → 0 ≤ th →
  x0 + tw ≤ (im_size im).1 → y0 + th ≤ (im_size im).2 →
  wf_image (Image_crop im (x0, y0, x0 + tw, y0 + th)) ∧
  im_size (Image_crop im (x0, y0, x0 + tw, y0 + th)) = (tw, th).
Proof.
  intros (_ & _ & Hbands) Hx Hy Htw Hth Hxw Hyh.
  unfold wf_image, Image_crop. simpl.
  replace (x0 + tw - x0) with tw by lia.
  replace (y0 + th - y0) with th by lia.
  repeat split; [done | done |].
  apply Forall_fmap. eapply Forall_impl; [exact Hbands |].
  intros b Hb. simpl. by eapply crop_band_wf.
Qed.

Lemma Image_new_wf mode size color :
  0 ≤ size.1 → 0 ≤ size.2 → wf_image (Image_new mode size color).
Proof.
  intros Hw Hh. destruct color as [[r g] b]. unfold wf_image, Image_new.
  simpl. repeat split; [done | done |].
  repeat constructor; simpl;
    try (by rewrite length_replicate);
    apply Forall_replicate; by rewrite length_replicate.
Qed.

Lemma fit_origin_center (rs dst : Z * Z) :
  fit_origin rs dst (1 # 2, 1 # 2)%Q
  = ((rs.1 - dst.1) / 2, (rs.2 - dst.2) / 2).
Proof. unfold fit_origin. cbn [fst snd]. by rewrite !Qfloor_half. Qed.

(** The fit of an image of positive dimensions, spelled out. *)
Lemma ImageOps_fit_positive im size method :
  0 < (im_size im).1 → 0 < (im_size im).2 →
  let s := py_max (Qred (inject_Z size.1 / inject_Z (im_size im).1))
                  (Qred (inject_Z size.2 / inject_Z (im_size im).2)) in
  let rs := fit_resized (im_size im) s in
  let x0 := (rs.1 - size.1) / 2 in
  let y0 := (rs.2 - size.2) / 2 in
  ImageOps_fit im size method (1 # 2, 1 # 2)%Q
  = Ok (Image_crop (Image_resize im rs method)
          (x0, y0, x0 + size.1, y0 + size.2)).
Proof.
  intros Hw Hh. unfold ImageOps_fit.
  rewrite fit_scale_positive by done.
  unfold mbind, result_bind. cbn [Image_resize im_size].
  by rewrite fit_origin_center.
Qed.

(** The fit keeps the mode and the number of bands. *)
Lemma ImageOps_fit_mode im size method out :
  0 < (im_size im).1 → 0 < (im_size im).2 →
  ImageOps_fit im size method (1 # 2, 1 # 2)%Q = Ok out →
  im_mode out = im_mode im ∧ length (im_bands out) = length (im_bands im).
Proof.
  intros Hw Hh. rewrite ImageOps_fit_positive by done. intros [= <-].
  cbn [Image_crop Image_resize im_bands im_mode].
  by rewrite !length_fmap.
Qed.

Lemma ImageOps_fit_wf im size method out :
  wf_image im → 0 < (im_size im).1 → 0 < (im_size im).2 →
  0 < size.1 → 0 < size.2 →
  ImageOps_fit im size method (1 # 2, 1 # 2)%Q = Ok out →
  wf_image out ∧ im_size out = size.
Proof.
  intros Hwf Hw Hh Htw Hth. rewrite ImageOps_fit_positive by done.
  intros [= <-].
  destruct (fit_resized_covers (im_size im) size _ Hw Hh
              (fit_scale_positive (im_size im) size Hw Hh)) as [Hrw Hrh].
  set (rs := fit_resized (im_size im) _) in *.
  assert (0 ≤ (rs.1 - size.1) / 2) by (apply Z.div_pos; lia).
  assert (0 ≤ (rs.2 - size.2) / 2) by (apply Z.div_pos; lia).
  assert ((rs.1 - size.1) / 2 * 2 ≤ rs.1 - size.1)
    by (rewrite Z.mul_comm; apply Z.mul_div_le; lia).
  assert ((rs.2 - size.2) / 2 * 2 ≤ rs.2 - size.2)
    by (rewrite Z.mul_comm; apply Z.mul_div_le; lia).
  pose proof (Image_crop_wf (Image_resize im rs method)
                ((rs.1 - size.1) / 2) ((rs.2 - size.2) / 2)
                size.1 size.2) as Hcrop.
  cbn [Image_resize im_size] in Hcrop.
  destruct Hcrop as [Hout Hsize]; try lia.
  { apply Image_resize_wf; lia. }
  split; [exact Hout |]. etrans; [exact Hsize |]. by destruct size.
Qed.

End Shapes.

(** ** Running the pipeline *)

Ltac run_M :=
  unfold M_bind, M_ret, call, lift, get_self, get_persisted,
    set_profile_image; cbn [self persisted calls fst snd record].

Section Pipeline.
Context {E : Env}.

(** The first thing [normalize] does with an image, whatever its shape, is
    to hand it to the fit. *)
Lemma normalize_first_call (im : Image) (wld : World) :
  ∃ rest,
    calls (normalize im wld).2
    = calls wld
      ++ Call_ImageOps_fit im PROFILE_IMG_SIZE ANTIALIAS (1 # 2, 1 # 2)%Q
      :: rest ∧
    Forall (λ c, is_Model_save c = false) rest.
Proof.
  unfold normalize. run_M.
  destruct (ImageOps_fit im _ _ _) as [fitted | e]; [| by exists []].
  destruct (bool_decide _); [| by exists []].
  destruct (getitem _ _) as [mask | e]; cbn [calls snd record];
    [| by exists []].
  eexists. split; [by rewrite <- app_assoc |]. by repeat constructor.
Qed.


End Pipeline.

(** ** The four ways through [normalize] *)

Section Normalize.
Context {E : Env}.

Lemma fit_scale_zero (src dst : Z * Z) :
  src.1 = 0 ∨ src.2 = 0 → fit_scale src dst = Raise InvalidImageError.
Proof. intros Hzero. unfold fit_scale. by rewrite decide_True. Qed.

Lemma normalize_fit_raises im wld e :
  ImageOps_fit im PROFILE_IMG_SIZE ANTIALIAS (1 # 2, 1 # 2)%Q = Raise e →
  normalize im wld
  = (Raise e,
     record (Call_ImageOps_fit im PROFILE_IMG_SIZE ANTIALIAS (1 # 2, 1 # 2)%Q)
       wld).
Proof. intros Hfit. unfold normalize. run_M. by rewrite Hfit. Qed.

Lemma normalize_plain im wld fitted :
  ImageOps_fit im PROFILE_IMG_SIZE ANTIALIAS (1 # 2, 1 # 2)%Q = Ok fitted →
  im_mode fitted ∈ ["L"; "RGB"] →
  normalize im wld
  = (Ok fitted,
     record (Call_ImageOps_fit im PROFILE_IMG_SIZE ANTIALIAS (1 # 2, 1 # 2)%Q)
       wld).
Proof.
  intros Hfit Hmode. unfold normalize. run_M. rewrite Hfit.
  by rewrite bool_decide_eq_false_2 by (intros Hn; by apply Hn).
Qed.

Lemma normalize_no_fourth_band im wld fitted :
  ImageOps_fit im PROFILE_IMG_SIZE ANTIALIAS (1 # 2, 1 # 2)%Q = Ok fitted →
  im_mode fitted ∉ ["L"; "RGB"] →
  im_bands fitted !! 3%nat = None →
  normalize im wld
  = (Raise IndexError,
     record (Call_ImageOps_fit im PROFILE_IMG_SIZE ANTIALIAS (1 # 2, 1 # 2)%Q)
       wld).
Proof.
  intros Hfit Hmode Hband. unfold normalize. run_M. rewrite Hfit.
  rewrite bool_decide_eq_true_2 by done.
  unfold getitem, Image_split. by rewrite list_lookup_fmap, Hband.
Qed.

Lemma normalize_flatten im wld fitted alpha :
  ImageOps_fit im PROFILE_IMG_SIZE ANTIALIAS (1 # 2, 1 # 2)%Q = Ok fitted →
  im_mode fitted ∉ ["L"; "RGB"] →
  im_bands fitted !! 3%nat = Some alpha →
  let canvas := Image_new "RGB" PROFILE_IMG_SIZE PROFILE_IMG_WHITE_BG in
  let mask :=
    {| im_mode := "L"; im_size := im_size fitted; im_bands := [alpha] |} in
  normalize im wld
  = (Image_paste canvas fitted mask,
     record (Call_Image_paste canvas fitted mask)
       (record
          (Call_ImageOps_fit im PROFILE_IMG_SIZE ANTIALIAS (1 # 2, 1 # 2)%Q)
          wld)).
Proof.
  intros Hfit Hmode Hband. unfold normalize. run_M. rewrite Hfit.
  rewrite bool_decide_eq_true_2 by done.
  unfold getitem, Image_split. by rewrite list_lookup_fmap, Hband.
Qed.

(** A [normalize] that returns went one of the two ways that return. *)
Lemma normalize_Ok_inv im wld out w2 :
  normalize im wld = (Ok out, w2) →
  ∃ fitted mid,
    ImageOps_fit im PROFILE_IMG_SIZE ANTIALIAS (1 # 2, 1 # 2)%Q = Ok fitted ∧
    w2 = {| self := self wld;
            persisted := persisted wld;
            calls :=
              calls wld
              ++ Call_ImageOps_fit im PROFILE_IMG_SIZE ANTIALIAS
                   (1 # 2, 1 # 2)%Q
              :: mid |} ∧
    (let canvas := Image_new "RGB" PROFILE_IMG_SIZE PROFILE_IMG_WHITE_BG in
     im_mode fitted ∈ ["L"; "RGB"] ∧ out = fitted ∧ mid = [] ∨
     (im_mode fitted ∉ ["L"; "RGB"]) ∧
     ∃ alpha,
       im_bands fitted !! 3%nat = Some alpha ∧
       Image_paste canvas fitted
         {| im_mode := "L"; im_size := im_size fitted; im_bands := [alpha] |}
       = Ok out ∧
       mid = [Call_Image_paste canvas fitted
                {| im_mode := "L"; im_size := im_size fitted;
                   im_bands := [alpha] |}]).
Proof.
  destruct (ImageOps_fit im PROFILE_IMG_SIZE ANTIALIAS (1 # 2, 1 # 2)%Q)
    as [fitted | e] eqn:Hfit.
  2: { by rewrite (normalize_fit_raises im wld e Hfit). }
  destruct (decide (im_mode fitted ∈ ["L"; "RGB"])) as [Hmode | Hmode].
  { rewrite (normalize_plain im wld fitted Hfit Hmode). intros [= <- <-].
    exists fitted, []. split; [done |]. split; [done |]. left. done. }
  destruct (im_bands fitted !! 3%nat) as [alpha |] eqn:Hband.
  2: { by rewrite (normalize_no_fourth_band im wld fitted Hfit Hmode Hband). }
  rewrite (normalize_flatten im wld fitted alpha Hfit Hmode Hband). cbv zeta.
  intros [= Hpaste <-]. eexists fitted, _. split; [done |]. split.
  - unfold record. cbn [self persisted calls]. by rewrite <- app_assoc.
  - right. split; [done |]. exists alpha. by repeat split.
Qed.

(** *** Compositing *)

Lemma blend_transparent d s : blend d s 0 = d.
Proof.
  unfold blend. rewrite Z.mul_0_r, Z.add_0_r, Z.sub_0_r.
  by apply Z.div_mul.
Qed.

Lemma blend_opaque d s : blend d s 255 = s.
Proof.
  unfold blend. rewrite Z.sub_diag, Z.mul_0_r, Z.add_0_l.
  by apply Z.div_mul.
Qed.

Lemma sample_paste_band d s m x y v :
  d !! y ≫= (.!! x) = Some v →
  sample (paste_band d s m) x y = blend v (sample s x y) (sample m x y).
Proof.
  intros Hv. unfold sample at 1, paste_band.
  rewrite list_lookup_imap.
  destruct (d !! y) as [row |] eqn:Hrow; [| done]. simpl in *.
  by rewrite list_lookup_imap, Hv.
Qed.

Lemma paste_band_wf w h d s m : wf_band w h d → wf_band w h (paste_band d s m).
Proof.
  intros [Hlen Hrows]. unfold paste_band. split.
  - by rewrite length_imap.
  - apply Forall_forall. intros row Hin.
    apply list_elem_of_lookup in Hin as [y Hy].
    rewrite list_lookup_imap in Hy.
    destruct (d !! y) as [row' |] eqn:Hrow; [| done].
    injection Hy as <-. rewrite length_imap.
    eapply Forall_lookup_1 in Hrows; [| exact Hrow]. exact Hrows.
Qed.

Lemma sample_plane (w h : nat) (c : Z) (x y : nat) :
  (x < w)%nat → (y < h)%nat →
  replicate h (replicate w c) !! y ≫= (.!! x) = Some c.
Proof.
  intros Hx Hy. rewrite lookup_replicate_2 by done. simpl.
  by rewrite lookup_replicate_2.
Qed.

(** Pasting on a fresh canvas through a mask of the canvas size: the result
    has the canvas mode and size, and shows the canvas colour wherever the
    mask is 0. *)
Lemma paste_on_canvas size color im alpha :
  0 ≤ size.1 → 0 ≤ size.2 → im_size im = size →
  let canvas := Image_new "RGB" size color in
  let mask := {| im_mode := "L"; im_size := im_size im; im_bands := [alpha] |} in
  ∃ out,
    Image_paste canvas im mask = Ok out ∧
    im_mode out = "RGB" ∧ im_size out = size ∧ wf_image out ∧
    length (im_bands out) = 3%nat ∧
    ∀ (i x y : nat) (o : band) (c : Z),
      (x < Z.to_nat size.1)%nat → (y < Z.to_nat size.2)%nat →
      sample alpha x y = 0 →
      im_bands out !! i = Some o →
      [color.1.1; color.1.2; color.2] !! i = Some c →
      sample o x y = c.
Proof.
  intros Hw Hh Hsize canvas mask.
  pose proof (Image_new_wf "RGB" size color Hw Hh) as Hcanvas.
  destruct color as [[r g] b]. unfold Image_paste.
  assert (im_size canvas = size) as Hcs by done.
  rewrite decide_True by (by rewrite Hcs).
  eexists. split; [reflexivity |].
  cbn [im_mode im_size im_bands]. split; [done |]. split; [done |].
  split; [| split].
  - destruct Hcanvas as (_ & _ & Hbands). repeat split; try done.
    cbn [im_size im_bands] in *. apply Forall_forall. intros o Hin.
    apply list_elem_of_lookup in Hin as [i Hi].
    rewrite list_lookup_imap in Hi.
    destruct (im_bands canvas !! i) as [d |] eqn:Hd; [| done].
    injection Hi as <-. apply paste_band_wf.
    eapply Forall_lookup_1 in Hbands; [| exact Hd]. exact Hbands.
  - by rewrite length_imap.
  - intros i x y o c Hx Hy Halpha Ho Hc. rewrite list_lookup_imap in Ho.
    cbn [fst snd] in Hc.
    destruct i as [| [| [| i]]]; simpl in Ho, Hc; try done;
      injection Ho as <-; injection Hc as <-;
      (erewrite sample_paste_band by (by apply sample_plane));
      rewrite Halpha; apply blend_transparent.
Qed.

End Normalize.

(** ** Modes, flattening and the output buffer *)

Section Flattening.
Context {E : Env}.

Lemma valid_image_bands im n :
  valid_image im → length <$> Image_getbands (im_mode im) = Some n →
  length (im_bands im) = n.
Proof. intros (_ & _ & _ & Hbands) Hn. congruence. Qed.

(** C2, at the images the code misses: a valid source whose mode carries an
    alpha channel but is not RGBA has fewer than four bands, so taking the
    fourth band of the split raises IndexError after the fit; nothing is
    composited and no output is produced. *)
Theorem C2_alpha_mask_needs_fourth_band (im : Image) (wld : World) :
  valid_image im → has_alpha (im_mode im) → im_mode im ≠ "RGBA" →
  normalize im wld
  = (Raise IndexError,
     record (Call_ImageOps_fit im PROFILE_IMG_SIZE ANTIALIAS (1 # 2, 1 # 2)%Q)
       wld).
Proof.
  intros Hvalid Halpha Hnot.
  pose proof Hvalid as (_ & Hw & Hh & _).
  pose proof (ImageOps_fit_positive im PROFILE_IMG_SIZE ANTIALIAS Hw Hh)
    as Hfit. cbv zeta in Hfit.
  destruct (ImageOps_fit_mode im _ _ _ Hw Hh Hfit) as [Hmode Hlen].
  assert (length (im_bands im) = 2%nat) as Htwo.
  { destruct Halpha as [Hm | [Hm | Hm]]; [| | done];
      apply valid_image_bands; try done; by rewrite Hm. }
  eapply normalize_no_fourth_band; [exact Hfit | |].
  - rewrite Hmode. intros Hin. apply list_elem_of_In in Hin. simpl in Hin.
    destruct Halpha as [Hm | [Hm | Hm]]; rewrite Hm in Hin;
      destruct Hin as [Hin | [Hin | []]]; discriminate Hin.
  - apply lookup_ge_None. rewrite Hlen, Htwo. lia.
Qed.

(** The part of C2 the code does deliver: for a valid source with a fourth
    band in a mode other than L and RGB (RGBA), the fitted image is
    composited over a canvas of the background colour through that band; the
    output is RGB, of the target size, and equals the background colour
    wherever the fitted alpha is 0. *)
Lemma normalize_four_bands (im : Image) (wld : World) :
  valid_image im → 0 < PROFILE_IMG_SIZE.1 → 0 < PROFILE_IMG_SIZE.2 →
  im_mode im ∉ ["L"; "RGB"] → (4 ≤ length (im_bands im))%nat →
  ∃ fitted alpha out,
    ImageOps_fit im PROFILE_IMG_SIZE ANTIALIAS (1 # 2, 1 # 2)%Q = Ok fitted ∧
    im_bands fitted !! 3%nat = Some alpha ∧
    (normalize im wld).1 = Ok out ∧
    im_mode out = "RGB" ∧ im_size out = PROFILE_IMG_SIZE ∧ wf_image out ∧
    length (im_bands out) = 3%nat ∧
    ∀ (i x y : nat) (o : band) (c : Z),
      (x < Z.to_nat PROFILE_IMG_SIZE.1)%nat →
      (y < Z.to_nat PROFILE_IMG_SIZE.2)%nat →
      sample alpha x y = 0 →
      im_bands out !! i = Some o →
      [PROFILE_IMG_WHITE_BG.1.1; PROFILE_IMG_WHITE_BG.1.2;
       PROFILE_IMG_WHITE_BG.2] !! i = Some c →
      sample o x y = c.
Proof.
  intros Hvalid Htw Hth Hmode Hfour.
  pose proof Hvalid as (Hwf & Hw & Hh & _).
  pose proof (ImageOps_fit_positive im PROFILE_IMG_SIZE ANTIALIAS Hw Hh)
    as Hfit. cbv zeta in Hfit.
  destruct (ImageOps_fit_mode im _ _ _ Hw Hh Hfit) as [Hmode' Hlen].
  destruct (ImageOps_fit_wf im _ _ _ Hwf Hw Hh Htw Hth Hfit) as [_ Hsize].
  set (fitted := Image_crop _ _) in *.
  destruct (lookup_lt_is_Some_2 (im_bands fitted) 3) as [alpha Halpha];
    [lia |].
  destruct (paste_on_canvas PROFILE_IMG_SIZE PROFILE_IMG_WHITE_BG fitted alpha)
    as (out & Hpaste & Hout); [lia | lia | done |].
  exists fitted, alpha, out. split; [exact Hfit |]. split; [exact Halpha |].
  split; [| exact Hout].
  rewrite (normalize_flatten im wld fitted alpha Hfit); [| | exact Halpha].
  - exact Hpaste.
  - by rewrite Hmode'.
Qed.

(** C6, as the code has it: for a valid source whose mode is L or RGB, or
    which has a fourth band (RGBA), the output of normalization has exactly
    the target size; it is an RGB buffer, except that a grayscale (L) source
    stays grayscale. *)
Theorem C6_output_size_and_mode (im : Image) (wld : World) :
  valid_image im → 0 < PROFILE_IMG_SIZE.1 → 0 < PROFILE_IMG_SIZE.2 →
  im_mode im ∈ ["L"; "RGB"] ∨ (4 ≤ length (im_bands im))%nat →
  ∃ out,
    (normalize im wld).1 = Ok out ∧
    im_size out = PROFILE_IMG_SIZE ∧ wf_image out ∧
    im_mode out = (if decide (im_mode im = "L") then "L" else "RGB").
Proof.
  intros Hvalid Htw Hth Hmode.
  pose proof Hvalid as (Hwf & Hw & Hh & _).
  destruct (decide (im_mode im ∈ ["L"; "RGB"])) as [Hplain | Hother].
  - pose proof (ImageOps_fit_positive im PROFILE_IMG_SIZE ANTIALIAS Hw Hh)
      as Hfit. cbv zeta in Hfit.
    destruct (ImageOps_fit_mode im _ _ _ Hw Hh Hfit) as [Hmode' _].
    destruct (ImageOps_fit_wf im _ _ _ Hwf Hw Hh Htw Hth Hfit)
      as [Hout Hsize].
    eexists. rewrite (normalize_plain im wld _ Hfit) by (by rewrite Hmode').
    split; [reflexivity |]. split; [exact Hsize |]. split; [exact Hout |].
    rewrite Hmode'. destruct (decide (im_mode im = "L")) as [-> | Hne]; [done |].
    apply list_elem_of_In in Hplain. simpl in Hplain.
    by destruct Hplain as [Heq | [Heq | []]].
  - destruct Hmode as [Hplain | Hfour]; [done |].
    destruct (normalize_four_bands im wld Hvalid Htw Hth Hother Hfour)
      as (fitted & alpha & out & _ & _ & Hnorm & Hm & Hsize & Hout & _).
    exists out. rewrite decide_False; [done |].
    intros Heq. apply Hother. rewrite Heq. apply list_elem_of_In. simpl. auto.
Qed.

(** C1: for a valid source of positive dimensions (w, h) and a positive
    target (tw, th), normalization computes s = max(tw/w, th/h), resizes
    with the antialias filter to round(w*s) x round(h*s), which covers the
    target on both axes, and crops around the centre (fraction (1/2, 1/2))
    to exactly (tw, th).  For an L or RGB source that crop is the output;
    for a source with a fourth band the output is that crop composited on
    the canvas, of the same size.  For any other source the crop is
    computed and then lost: taking the fourth band raises IndexError and
    there is no output.  A 4000x2000 source with target 500x500 is resized
    to 1000x500 and cropped at x-offset 250. *)
Theorem C1_fit_crop_geometry (im : Image) (tw th : Z) (wld : World) :
  wf_image im → 0 < (im_size im).1 → 0 < (im_size im).2 →
  PROFILE_IMG_SIZE = (tw, th) → 0 < tw → 0 < th →
  let w := (im_size im).1 in
  let h := (im_size im).2 in
  let s := py_max (Qred (inject_Z tw / inject_Z w))
                  (Qred (inject_Z th / inject_Z h)) in
  let rw := py_round (inject_Z w * s) in
  let rh := py_round (inject_Z h * s) in
  let x0 := (rw - tw) / 2 in
  let y0 := (rh - th) / 2 in
  let fitted :=
    Image_crop (Image_resize im (rw, rh) ANTIALIAS)
      (x0, y0, x0 + tw, y0 + th) in
  let fit_call :=
    Call_ImageOps_fit im (tw, th) ANTIALIAS (1 # 2, 1 # 2)%Q in
  let canvas := Image_new "RGB" (tw, th) PROFILE_IMG_WHITE_BG in
  fit_scale (im_size im) (tw, th) = Ok s ∧
  (inject_Z tw / inject_Z w <= s)%Q ∧ (inject_Z th / inject_Z h <= s)%Q ∧
  (s == inject_Z tw / inject_Z w ∨ s == inject_Z th / inject_Z h)%Q ∧
  tw ≤ rw ∧ th ≤ rh ∧
  im_size fitted = (tw, th) ∧ wf_image fitted ∧
  (im_mode im ∈ ["L"; "RGB"] →
   normalize im wld = (Ok fitted, record fit_call wld)) ∧
  (im_mode im ∉ ["L"; "RGB"] →
   ∀ alpha, im_bands fitted !! 3%nat = Some alpha →
     let mask :=
       {| im_mode := "L"; im_size := im_size fitted; im_bands := [alpha] |} in
     ∃ out,
       normalize im wld
       = (Ok out,
          record (Call_Image_paste canvas fitted mask)
            (record fit_call wld)) ∧
       Image_paste canvas fitted mask = Ok out ∧
       im_size out = (tw, th) ∧ wf_image out) ∧
  (im_mode im ∉ ["L"; "RGB"] → (length (im_bands im) < 4)%nat →
   normalize im wld = (Raise IndexError, record fit_call wld)) ∧
  (∀ big : Image, im_size big = (4000, 2000) →
     fit_scale (im_size big) (500, 500) = Ok (1 # 4)%Q ∧
     ImageOps_fit big (500, 500) ANTIALIAS (1 # 2, 1 # 2)%Q
     = Ok (Image_crop (Image_resize big (1000, 500) ANTIALIAS)
             (250, 0, 250 + 500, 0 + 500))).
Proof.
  intros Hwf Hw Hh HSIZE Htw Hth w h s rw rh x0 y0 fitted fit_call canvas.
  assert (fit_scale (im_size im) (tw, th) = Ok s) as Hscale.
  { by apply fit_scale_positive. }
  split; [exact Hscale |].
  split; [rewrite <- (Qred_correct (_ / inject_Z w)); apply py_max_ge_l |].
  split; [rewrite <- (Qred_correct (_ / inject_Z h)); apply py_max_ge_r |].
  split.
  { destruct (py_max_cases (Qred (inject_Z tw / inject_Z w))
                (Qred (inject_Z th / inject_Z h))) as [Hs | Hs];
      [left | right]; subst s; rewrite Hs; apply Qred_correct. }
  assert (tw ≤ rw ∧ th ≤ rh) as [Hrw Hrh].
  { apply (fit_resized_covers (im_size im) (tw, th) s); done. }
  split; [exact Hrw |]. split; [exact Hrh |].
  pose proof (ImageOps_fit_positive im (tw, th) ANTIALIAS Hw Hh) as Hfit.
  cbv zeta in Hfit. cbn [fst snd] in Hfit. fold w h s rw rh x0 y0 in Hfit.
  change (fit_resized (im_size im) s) with (rw, rh) in Hfit.
  cbn [fst snd] in Hfit. fold x0 y0 fitted in Hfit.
  destruct (ImageOps_fit_wf im (tw, th) ANTIALIAS _ Hwf Hw Hh Htw Hth Hfit)
    as (Hout & Hdim).
  destruct (ImageOps_fit_mode im (tw, th) ANTIALIAS _ Hw Hh Hfit)
    as (Hmode & Hlen).
  split; [exact Hdim |]. split; [exact Hout |].
  pose proof (normalize_plain im wld fitted) as Hplain.
  pose proof (normalize_flatten im wld fitted) as Hflat.
  pose proof (normalize_no_fourth_band im wld fitted) as Hnone.
  rewrite HSIZE in Hplain, Hflat, Hnone.
  split; [| split; [| split]].
  - intros Hin. apply Hplain; [exact Hfit | by rewrite Hmode].
  - intros Hnin alpha Halpha mask.
    destruct (paste_on_canvas (tw, th) PROFILE_IMG_WHITE_BG fitted alpha)
      as (out & Hpaste & _ & Hosize & Howf & _); [cbn; lia | cbn; lia | done |].
    exists out.
    split; [| split; [exact Hpaste | split; [exact Hosize | exact Howf]]].
    rewrite (Hflat alpha Hfit); [| by rewrite Hmode | exact Halpha].
    by rewrite Hpaste.
  - intros Hnin Hshort. apply Hnone; [exact Hfit | by rewrite Hmode |].
    apply lookup_ge_None. rewrite Hlen. lia.
  - intros big Hbig. rewrite Hbig. split; [by vm_compute |].
    rewrite ImageOps_fit_positive by (rewrite Hbig; simpl; lia).
    rewrite Hbig. cbn [fst snd].
    replace (py_max (Qred (inject_Z 500 / inject_Z 4000))
               (Qred (inject_Z 500 / inject_Z 2000))) with (1 # 4)%Q
      by (by vm_compute).
    by replace (fit_resized (4000, 2000) (1 # 4)) with (1000, 500)
      by (by vm_compute).
Qed.

End Flattening.

(** ** [resize_profile_image], step by step *)

Section Resize.
Context {E : Env}.

Lemma InMemoryUploadedFile_new_Ok file fname name ctype size charset upload :
  InMemoryUploadedFile_new file fname name ctype size charset = Ok upload ↔
  ∃ name',
    UploadedFile_set_name name = Ok name' ∧
    upload = {| up_file := file;
                up_field_name := fname;
                up_name := name';
                up_content_type := ctype;
                up_size := size;
                up_charset := charset |}.
Proof.
  unfold InMemoryUploadedFile_new.
  destruct (UploadedFile_set_name name) as [name' | e]; cbn.
  - split.
    + intros [= <-]. by exists name'.
    + by intros (? & [= <-] & ->).
  - split; [done | by intros (? & ? & _)].
Qed.

(** [resize_profile_image], statement by statement. *)
Lemma resize_profile_image_eq (wld : World) :
  resize_profile_image wld
  = let w1 := record (Call_Image_open (profile_image (self wld))) wld in
    match Image_open (profile_image (self wld)) (persisted wld) with
    | Raise e => (Raise e, w1)
    | Ok opened =>
        match normalize opened w1 with
        | (Raise e, w2) => (Raise e, w2)
        | (Ok out, w2) =>
            let w3 := record (Call_Image_save out "JPEG" 90) w2 in
            match encode_jpeg out 90 with
            | Raise e => (Raise e, w3)
            | Ok tmp_image_file =>
                match InMemoryUploadedFile_new tmp_image_file "ImageField"
                        (field_name (profile_image (self wld))) "image/jpeg"
                        (Image_tell out) None with
                | Raise e => (Raise e, w3)
                | Ok upload => set_profile_image (Some (Uploaded upload)) w3
                end
            end
        end
    end.
Proof.
  unfold resize_profile_image. run_M.
  destruct (Image_open _ _) as [opened | e]; [| done].
  destruct (normalize opened _) as [[out | e] w2]; [| done].
  destruct (encode_jpeg out 90) as [bs | e]; [| done].
  by destruct (InMemoryUploadedFile_new _ _ _ _ _ _).
Qed.

(** [normalize] touches neither the profile nor what is persisted. *)
Lemma normalize_frame (im : Image) (wld : World) :
  self (normalize im wld).2 = self wld ∧
  persisted (normalize im wld).2 = persisted wld.
Proof.
  unfold normalize. run_M.
  destruct (ImageOps_fit im _ _ _) as [fitted | e]; [| done].
  destruct (bool_decide _); [| done].
  destruct (getitem _ _) as [mask | e]; [| done].
  done.
Qed.

Lemma Qred_self (w : Z) : 0 < w → Qred (inject_Z w / inject_Z w) = 1%Q.
Proof.
  intros Hw. change 1%Q with (Qred 1). apply Qred_complete. field.
  intros Hz. assert (inject_Z 0 < inject_Z w)%Q as Hpos
    by (rewrite <- Zlt_Qlt; exact Hw).
  rewrite Hz in Hpos. by apply Qlt_irrefl in Hpos.
Qed.

Lemma py_round_times_one (n : Z) : py_round (inject_Z n * 1) = n.
Proof.
  rewrite (py_round_proper _ (inject_Z n)) by ring.
  apply py_round_inject_Z.
Qed.

Lemma resample_band_same_size method (size : Z * Z) (b : band) :
  interpolating method → wf_band size.1 size.2 b →
  resample_band method size size b = b.
Proof.
  intros Hinterp Hwf. pose proof Hwf as [Hlen Hrows].
  unfold resample_band. apply list_eq. intros y.
  rewrite list_lookup_fmap.
  destruct (decide (y < Z.to_nat size.2)%nat) as [Hy | Hy].
  - rewrite lookup_seq_lt by done. simpl.
    destruct (lookup_lt_is_Some_2 b y) as [row Hrow]; [by rewrite Hlen |].
    rewrite Hrow. f_equal.
    pose proof (Forall_lookup_1 _ _ _ _ Hrows Hrow) as Hrowlen.
    simpl in Hrowlen.
    apply list_eq. intros x. rewrite list_lookup_fmap.
    destruct (decide (x < Z.to_nat size.1)%nat) as [Hx | Hx].
    + rewrite lookup_seq_lt by done. simpl.
      rewrite Hinterp by done. unfold sample. rewrite Hrow. simpl.
      destruct (lookup_lt_is_Some_2 row x) as [v Hv]; [by rewrite Hrowlen |].
      by rewrite Hv.
    + rewrite lookup_seq_ge by lia. symmetry.
      apply lookup_ge_None. rewrite Hrowlen. lia.
  - rewrite lookup_seq_ge by lia. symmetry.
    apply lookup_ge_None. rewrite Hlen. lia.
Qed.

Lemma crop_band_full (w h : Z) (b : band) :
  wf_band w h b → crop_band 0 0 (0 + w) (0 + h) b = b.
Proof.
  intros [Hlen Hrows]. unfold crop_band.
  rewrite !Z.add_0_l, !Z.sub_0_r. change (Z.to_nat 0) with 0%nat.
  rewrite drop_0, take_ge by lia.
  apply list_eq. intros y. rewrite list_lookup_fmap.
  destruct (b !! y) as [row |] eqn:Hrow; [| done]. simpl. f_equal.
  pose proof (Forall_lookup_1 _ _ _ _ Hrows Hrow) as Hrowlen.
  simpl in Hrowlen. rewrite drop_0. apply take_ge. lia.
Qed.

(** The fit of an image that has the target size already. *)
Lemma ImageOps_fit_same_size (im : Image) (method : Resampling) :
  interpolating method → wf_image im →
  0 < (im_size im).1 → 0 < (im_size im).2 →
  fit_scale (im_size im) (im_size im) = Ok 1%Q ∧
  fit_resized (im_size im) 1 = im_size im ∧
  fit_origin (im_size im) (im_size im) (1 # 2, 1 # 2)%Q = (0, 0) ∧
  ImageOps_fit im (im_size im) method (1 # 2, 1 # 2)%Q = Ok im.
Proof.
  intros Hinterp (_ & _ & Hbands) Hw Hh.
  assert (fit_scale (im_size im) (im_size im) = Ok 1%Q) as Hscale.
  { rewrite fit_scale_positive by done. by rewrite !Qred_self. }
  assert (fit_resized (im_size im) 1 = im_size im) as Hresized.
  { unfold fit_resized. rewrite !py_round_times_one. by destruct (im_size im). }
  assert (fit_origin (im_size im) (im_size im) (1 # 2, 1 # 2)%Q = (0, 0))
    as Horigin by (by rewrite fit_origin_center, !Z.sub_diag).
  repeat split; try done.
  unfold ImageOps_fit. rewrite Hscale. unfold mbind, result_bind.
  rewrite Hresized. cbn [Image_resize im_size]. rewrite Horigin.
  unfold mret, result_ret. f_equal.
  destruct im as [m [w h] bs]. unfold Image_crop.
  cbn [im_mode im_size im_bands fst snd] in *. f_equal.
  - f_equal; lia.
  - cbn [Image_resize im_bands im_size].
    rewrite <- list_fmap_compose. rewrite <- (list_fmap_id bs) at 2.
    apply Forall_fmap_ext_1. eapply Forall_impl; [exact Hbands |].
    intros b Hb. simpl.
    rewrite (resample_band_same_size method (w, h) b Hinterp Hb).
    by apply crop_band_full.
Qed.

End Resize.

(** ** [resize_profile_image] and [save] *)

Section Save.
Context {E : Env}.

(** Everything [resize_profile_image] does to the world. *)
Lemma resize_profile_image_outcome (wld : World) :
  ∃ cs,
    calls (resize_profile_image wld).2
    = calls wld ++ Call_Image_open (profile_image (self wld)) :: cs ∧
    Forall (λ c, is_Model_save c = false) cs ∧
    persisted (resize_profile_image wld).2 = persisted wld ∧
    match (resize_profile_image wld).1 with
    | Raise _ => self (resize_profile_image wld).2 = self wld
    | Ok _ =>
        ∃ opened out bs name' mid,
          Image_open (profile_image (self wld)) (persisted wld) = Ok opened ∧
          normalize opened
            (record (Call_Image_open (profile_image (self wld))) wld)
          = (Ok out,
             {| self := self wld;
                persisted := persisted wld;
                calls :=
                  calls wld
                  ++ Call_Image_open (profile_image (self wld))
                  :: Call_ImageOps_fit opened PROFILE_IMG_SIZE ANTIALIAS
                       (1 # 2, 1 # 2)%Q
                  :: mid |}) ∧
          encode_jpeg out 90 = Ok bs ∧
          UploadedFile_set_name (field_name (profile_image (self wld)))
          = Ok name' ∧
          cs = Call_ImageOps_fit opened PROFILE_IMG_SIZE ANTIALIAS
                 (1 # 2, 1 # 2)%Q
               :: mid ++ [Call_Image_save out "JPEG" 90] ∧
          self (resize_profile_image wld).2
          = with_profile_image (self wld)
              (Some (Uploaded
                 {| up_file := bs;
                    up_field_name := "ImageField";
                    up_name := name';
                    up_content_type := "image/jpeg";
                    up_size := Image_tell out;
                    up_charset := None |}))
    end.
Proof.
  rewrite resize_profile_image_eq. cbv zeta.
  destruct (Image_open _ _) as [opened | e] eqn:Hopen.
  2: { exists []. by repeat split. }
  set (w1 := record _ wld).
  destruct (normalize_first_call opened w1) as (mid & Hcalls & Hmid).
  destruct (normalize_frame opened w1) as [Hself Hpers].
  destruct (normalize opened w1) as [[out | e] w2] eqn:Hnorm;
    cbn [fst snd] in *.
  2: { eexists. split; [rewrite Hcalls; cbn [calls record w1];
                          by rewrite <- app_assoc |].
       split; [by constructor |]. rewrite Hself, Hpers. by split. }
  assert (w2 = {| self := self wld;
                  persisted := persisted wld;
                  calls :=
                    calls wld
                    ++ Call_Image_open (profile_image (self wld))
                    :: Call_ImageOps_fit opened PROFILE_IMG_SIZE ANTIALIAS
                         (1 # 2, 1 # 2)%Q
                    :: mid |}) as Hw2.
  { destruct w2 as [s2 p2 c2]. cbn [self persisted calls] in *.
    subst s2 p2 c2. cbn [calls record w1 self persisted].
    by rewrite <- app_assoc. }
  assert (Forall (λ c, is_Model_save c = false)
            (Call_ImageOps_fit opened PROFILE_IMG_SIZE ANTIALIAS
               (1 # 2, 1 # 2)%Q :: mid ++ [Call_Image_save out "JPEG" 90]))
    as Hcs.
  { constructor; [done |]. apply Forall_app. split; [done |].
    by repeat constructor. }
  assert (calls (record (Call_Image_save out "JPEG" 90) w2)
          = calls wld
            ++ Call_Image_open (profile_image (self wld))
            :: Call_ImageOps_fit opened PROFILE_IMG_SIZE ANTIALIAS
                 (1 # 2, 1 # 2)%Q
            :: mid ++ [Call_Image_save out "JPEG" 90]) as Hcalls3.
  { rewrite Hw2. cbn [calls record]. by rewrite <- !app_assoc. }
  destruct (encode_jpeg out 90) as [bs | e] eqn:Henc.
  2: { eexists. split; [exact Hcalls3 |]. split; [exact Hcs |].
       cbn [fst snd record self persisted]. rewrite Hself, Hpers.
       by split. }
  destruct (InMemoryUploadedFile_new bs _ _ _ _ _) as [upload | e] eqn:Hnew.
  2: { eexists. split; [exact Hcalls3 |]. split; [exact Hcs |].
       cbn [fst snd record self persisted]. rewrite Hself, Hpers.
       by split. }
  apply InMemoryUploadedFile_new_Ok in Hnew as (name' & Hname & ->).
  unfold set_profile_image. cbn [fst snd self persisted calls].
  eexists. split; [exact Hcalls3 |]. split; [exact Hcs |].
  cbn [record persisted self]. split; [exact Hpers |].
  exists opened, out, bs, name', mid.
  split; [done |]. split; [by rewrite <- Hw2 |]. split; [done |].
  split; [done |]. split; [done |]. by rewrite Hself.
Qed.

Lemma save_eq (wld : World) :
  FieldFile_bool (profile_image (self wld)) = true →
  save wld
  = match resize_profile_image wld with
    | (Ok _, w1) => super_save w1
    | (Raise e, w1) => (Raise e, w1)
    end.
Proof. intros Hset. unfold save. run_M. by rewrite Hset. Qed.

Lemma super_save_calls (wld : World) :
  calls (super_save wld).2 = calls wld ++ [Call_Model_save (self wld)].
Proof. unfold super_save. by destruct (Model_save _ _) as [[this | e] st]. Qed.

(** C7: for a valid RGB source that has the target size already (and a
    kernel that interpolates), normalization leaves the pixel buffer as it
    is: scale 1, resized size unchanged, crop offset (0, 0), no compositing;
    the buffer handed to the JPEG encoder is the decoded one. *)
Theorem C7_same_size_rgb_is_identity (im : Image) (wld : World) :
  interpolating ANTIALIAS → valid_image im → im_mode im = "RGB" →
  im_size im = PROFILE_IMG_SIZE →
  fit_scale (im_size im) PROFILE_IMG_SIZE = Ok 1%Q ∧
  fit_resized (im_size im) 1 = im_size im ∧
  fit_origin (im_size im) PROFILE_IMG_SIZE (1 # 2, 1 # 2)%Q = (0, 0) ∧
  normalize im wld
  = (Ok im,
     record (Call_ImageOps_fit im PROFILE_IMG_SIZE ANTIALIAS (1 # 2, 1 # 2)%Q)
       wld) ∧
  (Image_open (profile_image (self wld)) (persisted wld) = Ok im →
   calls (resize_profile_image wld).2
   = calls wld
     ++ [Call_Image_open (profile_image (self wld));
         Call_ImageOps_fit im PROFILE_IMG_SIZE ANTIALIAS (1 # 2, 1 # 2)%Q;
         Call_Image_save im "JPEG" 90]).
Proof.
  intros Hinterp (Hwf & Hw & Hh & _) Hmode Hsize.
  destruct (ImageOps_fit_same_size im ANTIALIAS Hinterp Hwf Hw Hh)
    as (Hscale & Hresized & Horigin & Hfit).
  rewrite Hsize in Hscale at 2. rewrite Hsize in Horigin at 2.
  rewrite Hsize in Hfit at 1.
  assert (∀ w, normalize im w
               = (Ok im,
                  record (Call_ImageOps_fit im PROFILE_IMG_SIZE ANTIALIAS
                            (1 # 2, 1 # 2)%Q) w)) as Hnorm.
  { intros w. apply normalize_plain; [exact Hfit |]. rewrite Hmode.
    apply list_elem_of_In. simpl. auto. }
  repeat split; try done.
  intros Hopen. rewrite resize_profile_image_eq. cbv zeta.
  rewrite Hopen, Hnorm.
  destruct (encode_jpeg im 90) as [bs | e];
    [destruct (InMemoryUploadedFile_new bs _ _ _ _ _) |];
    unfold set_profile_image; cbn [snd calls record];
    by rewrite <- !app_assoc.
Qed.

(** What [Image.open] returns has positive dimensions. *)
Lemma Image_open_positive f st im :
  Image_open f st = Ok im → 0 < (im_size im).1 ∧ 0 < (im_size im).2.
Proof.
  unfold Image_open. destruct (field_read f st) as [bs | e]; [| done]. cbn.
  destruct (decode bs) as [im' | e]; [| done]. cbn.
  destruct (decide _) as [Hpos | Hpos]; [| done]. by intros [= <-].
Qed.

(** C8: an image whose decoded raster has zero width or zero height is
    refused with InvalidImageError when it is opened: the fit is never
    called, nothing is resized, and the profile and everything persisted are
    as before.  The fit itself refuses such a raster in the same way, before
    it resizes. *)
Theorem C8_zero_dimension_is_refused_before_the_fit
    (bs : bytes) (im : Image) (wld : World) :
  field_read (profile_image (self wld)) (persisted wld) = Ok bs →
  decode bs = Ok im →
  (im_size im).1 = 0 ∨ (im_size im).2 = 0 →
  Image_open (profile_image (self wld)) (persisted wld)
  = Raise InvalidImageError ∧
  resize_profile_image wld
  = (Raise InvalidImageError,
     record (Call_Image_open (profile_image (self wld))) wld) ∧
  (∀ size method centering,
     ImageOps_fit im size method centering = Raise InvalidImageError).
Proof.
  intros Hread Hdecode Hzero.
  assert (Image_open (profile_image (self wld)) (persisted wld)
          = Raise InvalidImageError) as Hopen.
  { unfold Image_open. rewrite Hread. cbn. rewrite Hdecode. cbn.
    rewrite decide_False by lia. done. }
  split; [exact Hopen |]. split.
  - rewrite resize_profile_image_eq. cbv zeta. by rewrite Hopen.
  - intros size method centering. unfold ImageOps_fit.
    by rewrite fit_scale_zero.
Qed.

(** The components of [split_sep] hold no slash. *)
Lemma split_sep_no_sep (p : string) :
  Forall (λ comp, contains_char "/" comp = false) (split_sep p).
Proof.
  induction p as [| c rest IH]; cbn [split_sep].
  - by repeat constructor.
  - destruct (bool_decide (c = "/"%char)) eqn:Hc.
    + by constructor.
    + destruct (split_sep rest) as [| comp comps].
      * constructor; [| constructor]. cbn [contains_char]. by rewrite Hc.
      * apply Forall_cons in IH as [Hcomp Hcomps].
        constructor; [| done]. cbn [contains_char]. by rewrite Hc.
Qed.

Lemma os_path_basename_no_sep (p : string) :
  contains_char "/" (os_path_basename p) = false.
Proof.
  unfold os_path_basename.
  destruct (last (split_sep p)) as [comp |] eqn:Hlast; [| done]. cbn.
  apply last_Some_elem_of in Hlast.
  by apply (proj1 (Forall_forall _ _) (split_sep_no_sep p)).
Qed.

Lemma split_sep_without_sep (p : string) :
  contains_char "/" p = false → split_sep p = [p].
Proof.
  induction p as [| c rest IH]; [done |]. cbn [contains_char split_sep].
  intros Hc. apply orb_false_iff in Hc as [Hc Hrest].
  by rewrite Hc, (IH Hrest).
Qed.

Lemma os_path_basename_without_sep (p : string) :
  contains_char "/" p = false → os_path_basename p = p.
Proof.
  intros Hp. unfold os_path_basename. by rewrite split_sep_without_sep.
Qed.

Lemma validate_file_name_Ok (name name' : string) :
  validate_file_name name = Ok name' →
  name' = name ∧ name = os_path_basename name.
Proof.
  unfold validate_file_name. destruct (bool_decide (_ ∈ _)); [done |].
  destruct (bool_decide (name ≠ _)) eqn:Hne; [done |].
  apply bool_decide_eq_false in Hne. intros [= <-].
  split; [done |]. by destruct (decide (name = os_path_basename name)).
Qed.

(** The name an [UploadedFile] takes holds no slash; it is the base name
    of the name it was given, when that is at most 255 characters long. *)
Lemma UploadedFile_set_name_Ok (name name' : string) :
  UploadedFile_set_name name = Ok name' →
  contains_char "/" name' = false ∧
  ((String.length (os_path_basename name) ≤ 255)%nat →
   name' = os_path_basename name).
Proof.
  unfold UploadedFile_set_name. intros Hset. split.
  - apply validate_file_name_Ok in Hset as [-> Hbase].
    rewrite Hbase. apply os_path_basename_no_sep.
  - intros Hlen.
    rewrite (proj2 (Nat.ltb_ge 255 _) Hlen) in Hset.
    by apply validate_file_name_Ok in Hset as [-> _].
Qed.

(** C9, as the code has it: [resize_profile_image] changes no field of the
    profile but the image, and nothing persisted.  When it raises, the image
    field is as before.  When it returns, the field holds the upload built
    from the encoded bytes, content type image/jpeg and the size metadata,
    under the name the upload takes from the old one: a name without a
    slash, which is the base name of the old name (when that is at most
    255 characters long), and so the old name itself exactly when the old
    name holds no slash. *)
Theorem C9_resize_keeps_base_name (wld : World) :
  let wld' := (resize_profile_image wld).2 in
  let name := field_name (profile_image (self wld)) in
  user (self wld') = user (self wld) ∧
  first_name (self wld') = first_name (self wld) ∧
  last_name (self wld') = last_name (self wld) ∧
  about_me (self wld') = about_me (self wld) ∧
  is_verified (self wld') = is_verified (self wld) ∧
  persisted wld' = persisted wld ∧
  match (resize_profile_image wld).1 with
  | Ok _ =>
      ∃ out bs name',
        encode_jpeg out 90 = Ok bs ∧
        UploadedFile_set_name name = Ok name' ∧
        profile_image (self wld')
        = Some (Uploaded
            {| up_file := bs;
               up_field_name := "ImageField";
               up_name := name';
               up_content_type := "image/jpeg";
               up_size := Image_tell out;
               up_charset := None |}) ∧
        field_name (profile_image (self wld')) = name' ∧
        contains_char "/" name' = false ∧
        ((String.length (os_path_basename name) ≤ 255)%nat →
         name' = os_path_basename name ∧
         (name' = name ↔ contains_char "/" name = false))
  | Raise _ => self wld' = self wld
  end.
Proof.
  cbv zeta.
  destruct (resize_profile_image_outcome wld) as (cs & _ & _ & Hpers & Hself).
  destruct ((resize_profile_image wld).1) as [[] | e].
  - destruct Hself
      as (opened & out & bs & name' & mid & _ & _ & Henc & Hname & _ & ->).
    destruct (UploadedFile_set_name_Ok _ _ Hname) as [Hnosep Hbase].
    repeat split; try done. exists out, bs, name'.
    split; [exact Henc |]. split; [exact Hname |]. split; [done |].
    split; [done |]. split; [exact Hnosep |].
    intros Hlen. split; [by apply Hbase |]. split.
    + by intros <-.
    + intros Hnone. rewrite (Hbase Hlen).
      by apply os_path_basename_without_sep.
  - rewrite Hself. by repeat split.
Qed.

(** C5: when normalization raises during [save] of a profile with an image,
    [save] raises the same exception without calling [Model.save]: the
    profile and everything persisted are as before.  When normalization
    returns, [Model.save] is called once, on the profile that carries the
    complete encoded image. *)
Theorem C5_failed_normalization_writes_nothing (wld : World) :
  FieldFile_bool (profile_image (self wld)) = true →
  match (resize_profile_image wld).1 with
  | Raise e =>
      save wld = (Raise e, (resize_profile_image wld).2) ∧
      self (save wld).2 = self wld ∧
      persisted (save wld).2 = persisted wld ∧
      ∃ cs, calls (save wld).2 = calls wld ++ cs ∧
            Forall (λ c, is_Model_save c = false) cs
  | Ok _ =>
      save wld = super_save (resize_profile_image wld).2 ∧
      ∃ out bs name',
        encode_jpeg out 90 = Ok bs ∧
        UploadedFile_set_name (field_name (profile_image (self wld)))
        = Ok name' ∧
        last (calls (save wld).2)
        = Some (Call_Model_save
                  (with_profile_image (self wld)
                     (Some (Uploaded
                        {| up_file := bs;
                           up_field_name := "ImageField";
                           up_name := name';
                           up_content_type := "image/jpeg";
                           up_size := Image_tell out;
                           up_charset := None |}))))
  end.
Proof.
  intros Hset. rewrite (save_eq wld Hset).
  destruct (resize_profile_image_outcome wld)
    as (cs & Hcalls & Hcs & Hpers & Hself).
  destruct (resize_profile_image wld) as [[[] | e] w1]; cbn [fst snd] in *.
  - split; [done |].
    destruct Hself
      as (opened & out & bs & name' & mid & _ & _ & Henc & Hname & _ & Hself).
    exists out, bs, name'. split; [exact Henc |]. split; [exact Hname |].
    by rewrite super_save_calls, last_snoc, Hself.
  - repeat split; try done. eexists. split; [exact Hcalls |].
    by constructor.
Qed.

(** C10: [save] of a profile with an image always starts by decoding the
    current image, whatever its history.  When [save] returns, the whole
    pipeline has run on what the field held: the image was opened, the
    opened image fitted to the target size, the fitted image kept (modes L
    and RGB) or pasted on the background through its fourth band, and that
    very result encoded as JPEG; [Model.save] comes last and receives the
    profile with the re-encoded image. *)
Theorem C10_save_always_normalizes (wld : World) :
  FieldFile_bool (profile_image (self wld)) = true →
  (∃ rest,
     calls (save wld).2
     = calls wld ++ Call_Image_open (profile_image (self wld)) :: rest) ∧
  ((save wld).1 = Ok () →
   ∃ opened fitted out bs name' mid,
     Image_open (profile_image (self wld)) (persisted wld) = Ok opened ∧
     ImageOps_fit opened PROFILE_IMG_SIZE ANTIALIAS (1 # 2, 1 # 2)%Q
     = Ok fitted ∧
     (let canvas := Image_new "RGB" PROFILE_IMG_SIZE PROFILE_IMG_WHITE_BG in
      im_mode fitted ∈ ["L"; "RGB"] ∧ out = fitted ∧ mid = [] ∨
      (im_mode fitted ∉ ["L"; "RGB"]) ∧
      ∃ alpha,
        im_bands fitted !! 3%nat = Some alpha ∧
        Image_paste canvas fitted
          {| im_mode := "L"; im_size := im_size fitted;
             im_bands := [alpha] |}
        = Ok out ∧
        mid = [Call_Image_paste canvas fitted
                 {| im_mode := "L"; im_size := im_size fitted;
                    im_bands := [alpha] |}]) ∧
     normalize opened
       (record (Call_Image_open (profile_image (self wld))) wld)
     = (Ok out,
        {| self := self wld;
           persisted := persisted wld;
           calls :=
             calls wld
             ++ [Call_Image_open (profile_image (self wld));
                 Call_ImageOps_fit opened PROFILE_IMG_SIZE ANTIALIAS
                   (1 # 2, 1 # 2)%Q]
             ++ mid |}) ∧
     encode_jpeg out 90 = Ok bs ∧
     UploadedFile_set_name (field_name (profile_image (self wld)))
     = Ok name' ∧
     calls (save wld).2
     = calls wld
       ++ [Call_Image_open (profile_image (self wld));
           Call_ImageOps_fit opened PROFILE_IMG_SIZE ANTIALIAS
             (1 # 2, 1 # 2)%Q]
       ++ mid
       ++ [Call_Image_save out "JPEG" 90;
           Call_Model_save
             (with_profile_image (self wld)
                (Some (Uploaded
                   {| up_file := bs;
                      up_field_name := "ImageField";
                      up_name := name';
                      up_content_type := "image/jpeg";
                      up_size := Image_tell out;
                      up_charset := None |})))]).
Proof.
  intros Hset. rewrite (save_eq wld Hset).
  destruct (resize_profile_image_outcome wld)
    as (cs & Hcalls & Hcs & Hpers & Hself).
  destruct (resize_profile_image wld) as [[[] | e] w1]; cbn [fst snd] in *.
  - destruct Hself
      as (opened & out & bs & name' & mid & Hopen & Hnorm & Henc & Hname
          & -> & Hself).
    rewrite super_save_calls, Hcalls, Hself. split.
    + eexists. by rewrite <- app_assoc.
    + intros _.
      destruct (normalize_Ok_inv _ _ _ _ Hnorm)
        as (fitted & mid' & Hfit & Hw2 & Hshape).
      assert (mid' = mid) as ->.
      { injection Hw2 as Hw2. cbn [record calls] in Hw2.
        rewrite <- app_assoc in Hw2. apply app_inv_head in Hw2.
        by injection Hw2 as ->. }
      exists opened, fitted, out, bs, name', mid.
      split; [exact Hopen |]. split; [exact Hfit |].
      split; [exact Hshape |]. split; [exact Hnorm |].
      split; [exact Henc |]. split; [exact Hname |].
      cbn [app]. rewrite <- !app_assoc. cbn [app].
      rewrite <- !app_assoc. reflexivity.
  - split; [by exists cs | done].
Qed.

End Save.

(** ** The derived thumbnail *)

Section Thumbnail.
Context {E : Env}.

(** A call of [derive] that returns leaves an entry with the source's
    current fingerprint under the key. *)
Lemma derive_records_fingerprint cache src spec bs :
  (derive cache src spec).1 = Ok bs →
  ∃ entry,
    (derive cache src spec).2 !! (identity src, thumb_size spec) = Some entry ∧
    entry_bytes entry = bs ∧ entry_fingerprint entry = fingerprint src.
Proof.
  unfold derive.
  destruct (cache !! (identity src, thumb_size spec)) as [entry |] eqn:Hkey.
  - destruct (decide (entry_fingerprint entry = fingerprint src)) as [Hfp | Hfp].
    + intros [= <-]. by exists entry.
    + destruct (generate src spec) as [bs' | e]; [| done].
      intros [= <-]. eexists. cbn [fst snd]. by rewrite lookup_insert_eq.
  - destruct (generate src spec) as [bs' | e]; [| done].
    intros [= <-]. eexists. cbn [fst snd]. by rewrite lookup_insert_eq.
Qed.

(** The eager purge is an optimization only: after it, [derive] misses and
    derives from the current source all the same. *)
Lemma derive_after_invalidate cache src spec :
  (derive (invalidate (identity src) cache) src spec).1 = generate src spec.
Proof.
  unfold derive, invalidate.
  rewrite (proj2 (map_lookup_filter_None _ _ _)).
  - by destruct (generate src spec).
  - right. intros entry _ Hne. by apply Hne.
Qed.

(** C3: a cache entry whose recorded fingerprint differs from the source's
    current one is never served: [derive] returns what the derivation from
    the current source yields and stores it under the current fingerprint.
    In particular, once the source has been replaced by a new version, the
    entry a [derive] of the old version left behind is not returned. *)
Theorem C3_stale_entry_is_regenerated
    (cache : gmap (string * (Z * Z)) CacheEntry) (src : SourceAsset)
    (spec : DerivationSpec) (entry : CacheEntry) :
  cache !! (identity src, thumb_size spec) = Some entry →
  entry_fingerprint entry ≠ fingerprint src →
  (derive cache src spec).1 = generate src spec ∧
  match generate src spec with
  | Ok bs =>
      (derive cache src spec).2
      = <[(identity src, thumb_size spec) :=
            {| entry_bytes := bs; entry_fingerprint := fingerprint src |}]>
          cache
  | Raise _ => (derive cache src spec).2 = cache
  end ∧
  (∀ cache0 old bs_old,
     identity old = identity src → fingerprint old ≠ fingerprint src →
     derive cache0 old spec = (Ok bs_old, cache) →
     (derive cache src spec).1 = generate src spec).
Proof.
  intros Hkey Hstale.
  assert (∀ c e, c !! (identity src, thumb_size spec) = Some e →
                 entry_fingerprint e ≠ fingerprint src →
                 (derive c src spec).1 = generate src spec) as Hregen.
  { intros c e Hc He. unfold derive. rewrite Hc.
    rewrite decide_False by done. by destruct (generate src spec). }
  split; [by eapply Hregen |]. split.
  - unfold derive. rewrite Hkey. rewrite decide_False by done.
    by destruct (generate src spec).
  - intros cache0 old bs_old Hid Hfp Hold.
    destruct (derive_records_fingerprint cache0 old spec bs_old)
      as (e & He & _ & Hefp); [by rewrite Hold |].
    rewrite Hold, Hid in He. cbn [snd] in He.
    eapply Hregen; [exact He |]. by rewrite Hefp.
Qed.

End Thumbnail.

(** ** Resolving URLs *)

Section Urls.
Context {E : Env}.

(** Without an image, both URLs are the placeholder and nothing is read. *)
Lemma urls_of_unset_field (wld : World) :
  FieldFile_bool (profile_image (self wld)) = false →
  profile_image_url (self wld) (persisted wld)
  = Ok "/static/img/no_image_md.png" ∧
  profile_image_thumb_url wld = (Ok "/static/img/no_image_md.png", wld).
Proof.
  intros Hunset. split.
  - unfold profile_image_url. by rewrite Hunset.
  - unfold profile_image_thumb_url, ImageCacheFile_bool, profile_image_thumb.
    run_M. by rewrite Hunset.
Qed.

(** C4, as the code has it, for a profile whose image field names a stored
    file.  [profile_image_url] answers the placeholder when the storage
    holds no bytes at the path of MEDIA_ROOT/name, but raises when the
    storage refuses that path.  [profile_image_thumb_url] does not reach its
    existence check when the source bytes are missing and no cache file is
    there yet: testing the thumbnail field for truth reads the source and
    the IOError of that read is what the property raises. *)
Theorem C4_thumb_url_raises_on_missing_source (wld : World) (n : string) :
  profile_image (self wld) = Some (Stored n) → n ≠ "" →
  (∀ p, storage_path (os_path_join MEDIA_ROOT n) = Ok p →
        files (persisted wld) !! p = None →
        profile_image_url (self wld) (persisted wld)
        = Ok "/static/img/no_image_md.png") ∧
  (∀ e, storage_path (os_path_join MEDIA_ROOT n) = Raise e →
        profile_image_url (self wld) (persisted wld) = Raise e) ∧
  (∀ p, cachefile_name n PROFILE_IMG_THUMB_SIZE ≠ "" →
        default_storage_exists (persisted wld)
          (cachefile_name n PROFILE_IMG_THUMB_SIZE)
        = Ok false →
        storage_path n = Ok p →
        files (persisted wld) !! p = None →
        profile_image_thumb_url wld = (Raise IOError, wld)).
Proof.
  intros Himage Hname.
  assert (FieldFile_bool (profile_image (self wld)) = true) as Hset.
  { rewrite Himage. cbn. by apply bool_decide_eq_true. }
  split; [| split].
  - intros p Hpath Hfile. unfold profile_image_url, default_storage_exists.
    rewrite Hset, Himage. cbn [field_name from_option FieldFile_name].
    rewrite Hpath. cbn. rewrite Hfile.
    by rewrite bool_decide_eq_false_2 by (by intros [? ?]).
  - intros e Hpath. unfold profile_image_url, default_storage_exists.
    rewrite Hset, Himage. cbn [field_name from_option FieldFile_name].
    by rewrite Hpath.
  - intros p Hcache Hmiss Hpath Hfile.
    unfold profile_image_thumb_url, ImageCacheFile_bool, profile_image_thumb.
    run_M. rewrite Hset, Himage.
    cbn [field_name from_option FieldFile_name FieldFile_bool].
    rewrite (bool_decide_eq_true_2 _ Hcache). cbn [negb].
    rewrite Hmiss. cbn [field_read]. rewrite Hpath. cbn. by rewrite Hfile.
Qed.

End Urls.

(** ** The pipeline on concrete inputs *)

Ltac solve_wf :=
  unfold valid_image, wf_image, wf_band; cbn;
  repeat first [split | constructor]; try reflexivity; try lia.

Lemma nearest_interpolating : interpolating (E := small_env) ANTIALIAS.
Proof.
  intros b size x y _ Hx Hy. cbn. unfold nearest.
  rewrite !Z.div_mul by lia. by rewrite !Nat2Z.id.
Qed.

Lemma C1_witness :
  wf_image la_1x1 ∧
  normalize (E := small_env) la_1x1 (world_of (alice None) no_files)
  = (Raise IndexError,
     record (Call_ImageOps_fit la_1x1 (2, 2) ANTIALIAS (1 # 2, 1 # 2)%Q)
       (world_of (alice None) no_files)).
Proof.
  assert (wf_image la_1x1) as Hwf by solve_wf.
  split; [exact Hwf |].
  destruct (C1_fit_crop_geometry (E := small_env) la_1x1 2 2
              (world_of (alice None) no_files) Hwf)
    as (_ & _ & _ & _ & _ & _ & _ & _ & _ & _ & Hshort & _);
    [cbn; lia | cbn; lia | reflexivity | lia | lia |].
  apply Hshort; [| cbn; lia].
  intros Hin. apply list_elem_of_In in Hin. simpl in Hin.
  by destruct Hin as [? | [? | []]].
Defined.

Lemma C2_witness :
  valid_image la_1x1 ∧ has_alpha (im_mode la_1x1) ∧
  (normalize (E := small_env) la_1x1 (world_of (alice None) no_files)).1
  = Raise IndexError.
Proof.
  assert (valid_image la_1x1) as Hvalid by solve_wf.
  assert (has_alpha (im_mode la_1x1)) as Halpha by (by left).
  split; [exact Hvalid |]. split; [exact Halpha |].
  by rewrite (C2_alpha_mask_needs_fourth_band (E := small_env) la_1x1
                (world_of (alice None) no_files) Hvalid Halpha).
Defined.

Lemma C3_witness :
  cache_of_first_version !! (identity second_version, (1, 1))
  = Some first_version_entry ∧
  entry_fingerprint first_version_entry ≠ fingerprint second_version ∧
  (derive (E := small_env) cache_of_first_version second_version
     {| thumb_size := (1, 1) |}).1
  = generate (E := small_env) second_version {| thumb_size := (1, 1) |}.
Proof.
  assert (cache_of_first_version !! (identity second_version, (1, 1))
          = Some first_version_entry) as Hkey by (by vm_compute).
  assert (entry_fingerprint first_version_entry ≠ fingerprint second_version)
    as Hstale by (cbn; lia).
  split; [exact Hkey |]. split; [exact Hstale |].
  exact (proj1 (C3_stale_entry_is_regenerated (E := small_env)
                  cache_of_first_version second_version
                  {| thumb_size := (1, 1) |} first_version_entry
                  Hkey Hstale)).
Defined.

Lemma C4_witness :
  profile_image_thumb_url (E := small_env)
    (world_of (alice (Some (Stored "profile_uploads/gone.jpg"))) no_files)
  = (Raise IOError,
     world_of (alice (Some (Stored "profile_uploads/gone.jpg"))) no_files) ∧
  profile_image_url (E := small_env)
    (alice (Some (Stored "profile_uploads/gone.jpg"))) no_files
  = Ok "/static/img/no_image_md.png" ∧
  profile_image_url (E := small_env)
    (alice (Some (Stored "/etc/passwd"))) no_files
  = Raise SuspiciousFileOperation.
Proof.
  destruct (C4_thumb_url_raises_on_missing_source (E := small_env)
              (world_of (alice (Some (Stored "profile_uploads/gone.jpg")))
                 no_files)
              "profile_uploads/gone.jpg" eq_refl)
    as (Hurl & _ & Hthumb); [done |].
  destruct (C4_thumb_url_raises_on_missing_source (E := small_env)
              (world_of (alice (Some (Stored "/etc/passwd"))) no_files)
              "/etc/passwd" eq_refl)
    as (_ & Hraise & _); [done |].
  split; [| split].
  - apply (Hthumb "/media/profile_uploads/gone.jpg");
      [done | by vm_compute | by vm_compute | by vm_compute].
  - apply (Hurl "/media/profile_uploads/gone.jpg"); by vm_compute.
  - apply Hraise. by vm_compute.
Defined.

Lemma C5_witness :
  save (E := small_env)
    (world_of (alice (upload_of "a.png" truncated_bytes)) no_files)
  = (Raise DecodeError,
     record (Call_Image_open (upload_of "a.png" truncated_bytes))
       (world_of (alice (upload_of "a.png" truncated_bytes)) no_files)).
Proof.
  pose proof (C5_failed_normalization_writes_nothing (E := small_env)
                (world_of (alice (upload_of "a.png" truncated_bytes)) no_files)
                eq_refl) as Hsave.
  change ((resize_profile_image (E := small_env)
             (world_of (alice (upload_of "a.png" truncated_bytes))
                no_files)).1)
    with (@Raise unit DecodeError) in Hsave.
  exact (proj1 Hsave).
Defined.

Lemma C6_witness :
  valid_image rgba_2x2 ∧
  ∃ out,
    (normalize (E := small_env) rgba_2x2 (world_of (alice None) no_files)).1
    = Ok out ∧
    im_size out = (2, 2) ∧ im_mode out = "RGB".
Proof.
  assert (valid_image rgba_2x2) as Hvalid by solve_wf.
  split; [exact Hvalid |].
  destruct (C6_output_size_and_mode (E := small_env) rgba_2x2
              (world_of (alice None) no_files) Hvalid)
    as (out & Hnorm & Hsize & _ & Hmode);
    [cbn; lia | cbn; lia | right; cbn; lia |].
  by exists out.
Defined.

(** C6 as stated fails: a valid grayscale source is normalized to a
    grayscale buffer, not an RGB one. *)
Lemma C6_grayscale_stays_grayscale :
  valid_image gray_4x2 ∧
  ∃ out,
    (normalize (E := small_env) gray_4x2 (world_of (alice None) no_files)).1
    = Ok out ∧
    im_size out = PROFILE_IMG_SIZE (Env := small_env) ∧
    im_mode out = "L" ∧ im_mode out ≠ "RGB".
Proof.
  split; [solve_wf |]. eexists. split; [by vm_compute |]. by cbn.
Qed.

Lemma C7_witness :
  valid_image rgb_2x2 ∧
  normalize (E := small_env) rgb_2x2 (world_of (alice None) no_files)
  = (Ok rgb_2x2,
     record (Call_ImageOps_fit rgb_2x2 (2, 2) ANTIALIAS (1 # 2, 1 # 2)%Q)
       (world_of (alice None) no_files)).
Proof.
  assert (valid_image rgb_2x2) as Hvalid by solve_wf.
  split; [exact Hvalid |].
  exact (proj1 (proj2 (proj2 (proj2
           (C7_same_size_rgb_is_identity (E := small_env) rgb_2x2
              (world_of (alice None) no_files)
              nearest_interpolating Hvalid eq_refl eq_refl))))).
Defined.

Lemma C8_witness :
  resize_profile_image (E := small_env)
    (world_of (alice (upload_of "a.png" rgb_0x3_bytes)) no_files)
  = (Raise InvalidImageError,
     record (Call_Image_open (upload_of "a.png" rgb_0x3_bytes))
       (world_of (alice (upload_of "a.png" rgb_0x3_bytes)) no_files)).
Proof.
  exact (proj1 (proj2
           (C8_zero_dimension_is_refused_before_the_fit (E := small_env)
              rgb_0x3_bytes rgb_0x3
              (world_of (alice (upload_of "a.png" rgb_0x3_bytes)) no_files)
              eq_refl eq_refl (or_introl eq_refl)))).
Defined.

(** C9 as stated fails: the image stored by a first [save] is named
    [profile_uploads/a.png]; after [resize_profile_image] the field is named
    [a.png]. *)
Lemma C9_stored_name_loses_its_directory :
  FieldFile_bool (profile_image (self saved_once)) = true ∧
  (resize_profile_image (E := small_env) saved_once).1 = Ok () ∧
  field_name (profile_image (self saved_once)) = "profile_uploads/a.png" ∧
  field_name
    (profile_image
       (self (resize_profile_image (E := small_env) saved_once).2))
  = "a.png" ∧
  field_name
    (profile_image
       (self (resize_profile_image (E := small_env) saved_once).2))
  ≠ field_name (profile_image (self saved_once)).
Proof. repeat split; by vm_compute. Qed.

Lemma C10_witness :
  FieldFile_bool (profile_image (self saved_once)) = true ∧
  (save (E := small_env) saved_once).1 = Ok () ∧
  ∃ opened fitted out bs mid,
    Image_open (E := small_env) (Some (Stored "profile_uploads/a.png"))
      (persisted saved_once)
    = Ok opened ∧
    ImageOps_fit (E := small_env) opened (2, 2) ANTIALIAS (1 # 2, 1 # 2)%Q
    = Ok fitted ∧
    (normalize (E := small_env) opened
       (record (Call_Image_open (Some (Stored "profile_uploads/a.png")))
          saved_once)).1
    = Ok out ∧
    raw_encode out 90 = Ok bs ∧
    calls (save (E := small_env) saved_once).2
    = calls saved_once
      ++ [Call_Image_open (Some (Stored "profile_uploads/a.png"));
          Call_ImageOps_fit opened (2, 2) ANTIALIAS (1 # 2, 1 # 2)%Q]
      ++ mid
      ++ [Call_Image_save out "JPEG" 90;
          Call_Model_save
            (alice
               (Some (Uploaded
                  {| up_file := bs;
                     up_field_name := "ImageField";
                     up_name := "a.png";
                     up_content_type := "image/jpeg";
                     up_size := 0;
                     up_charset := None |})))].
Proof.
  assert (FieldFile_bool (profile_image (self saved_once)) = true) as Hset
    by (by vm_compute).
  assert ((save (E := small_env) saved_once).1 = Ok ()) as Hok
    by (by vm_compute).
  split; [exact Hset |]. split; [exact Hok |].
  destruct (proj2 (C10_save_always_normalizes (E := small_env) saved_once
                     Hset) Hok)
    as (opened & fitted & out & bs & name' & mid & Hopen & Hfit & _ & Hnorm
        & Henc & Hname & Hcalls).
  vm_compute in Hname. injection Hname as <-.
  exists opened, fitted, out, bs, mid.
  split; [exact Hopen |]. split; [exact Hfit |].
  split; [exact (f_equal fst Hnorm) |]. split; [exact Henc |]. exact Hcalls.
Defined.


(** * Further properties of the models *)

(** ** [save] beyond the normalizing path *)

Section SaveBranches.
Context {E : Env}.

(** X1: [save] of a profile whose image field is unset, or set with an
    empty name, starts no decode, fit or encoding: the only library call is
    [Model.save], on the profile as it is, and its outcome is the outcome
    of [save]. *)
Theorem X1_save_without_image_only_persists (wld : World) :
  FieldFile_bool (profile_image (self wld)) = false →
  calls (save wld).2 = calls wld ++ [Call_Model_save (self wld)] ∧
  persisted (save wld).2 = (Model_save (self wld) (persisted wld)).2 ∧
  match (Model_save (self wld) (persisted wld)).1 with
  | Ok this => (save wld).1 = Ok () ∧ self (save wld).2 = this
  | Raise e => (save wld).1 = Raise e ∧ self (save wld).2 = self wld
  end.
Proof.
  intros Hunset. unfold save. run_M. rewrite Hunset.
  unfold super_save.
  by destruct (Model_save (self wld) (persisted wld)) as [[this | e] st].
Qed.


End SaveBranches.

(** ** What [normalize] returns *)

Section NormalizeReturns.
Context {E : Env}.

Lemma ImageOps_fit_returns im size method centering out :
  ImageOps_fit im size method centering = Ok out →
  im_mode out = im_mode im ∧ im_size out = size ∧
  length (im_bands out) = length (im_bands im).
Proof.
  unfold ImageOps_fit. destruct (fit_scale _ _) as [s | e]; [| done].
  unfold mbind, result_bind.
  destruct (fit_origin _ _ _) as [x0 y0]. intros [= <-].
  cbn [Image_crop Image_resize im_mode im_size im_bands].
  split; [done |]. split; [| by rewrite !length_fmap].
  destruct size as [tw th]. cbn [fst snd]. f_equal; lia.
Qed.

Lemma Image_paste_returns canvas im mask out :
  Image_paste canvas im mask = Ok out →
  im_mode out = im_mode canvas ∧ im_size out = im_size canvas.
Proof.
  unfold Image_paste. destruct (decide _); [| done]. by intros [= <-].
Qed.

Lemma Image_new_mode_size mode size color :
  im_mode (Image_new mode size color) = mode ∧
  im_size (Image_new mode size color) = size.
Proof. by destruct color as [[r g] b]. Qed.

Lemma normalize_returns_mode_size (im out : Image) (wld : World) :
  (normalize im wld).1 = Ok out →
  im_size out = PROFILE_IMG_SIZE ∧
  (im_mode out = "L" ∨ im_mode out = "RGB") ∧
  (im_mode out = "L" ↔ im_mode im = "L").
Proof.
  unfold normalize. run_M.
  destruct (ImageOps_fit im _ _ _) as [fitted | e] eqn:Hfit; [| done].
  apply ImageOps_fit_returns in Hfit as (Hmode & Hsize & _).
  destruct (bool_decide (im_mode fitted ∉ ["L"; "RGB"])) eqn:Hguard.
  - apply bool_decide_eq_true in Hguard.
    destruct (getitem _ _) as [mask | e]; [| done]. cbn [fst].
    intros Hpaste. apply Image_paste_returns in Hpaste as [Hm Hs].
    destruct (Image_new_mode_size "RGB" PROFILE_IMG_SIZE PROFILE_IMG_WHITE_BG)
      as [Hcm Hcs].
    rewrite Hcm in Hm. rewrite Hcs in Hs.
    split; [done |]. split; [by right |]. rewrite Hm. split; [done |].
    intros HL. exfalso. apply Hguard. rewrite Hmode, HL.
    apply list_elem_of_In. simpl. auto.
  - apply bool_decide_eq_false in Hguard. cbn [fst]. intros [= <-].
    split; [done |]. rewrite Hmode. split; [| done].
    destruct (decide (im_mode fitted ∈ ["L"; "RGB"])) as [Hin | Hnin].
    + rewrite Hmode in Hin. apply list_elem_of_In in Hin. simpl in Hin.
      destruct Hin as [<- | [<- | []]]; auto.
    + by destruct Hguard.
Qed.

(** X3: whatever image it is given, when [normalize] returns, the buffer
    has the size of [PROFILE_IMG["SIZE"]] and its mode is ["L"] or ["RGB"],
    never a mode with alpha; it is ["L"] exactly when the source was. *)
Theorem X3_normalize_returns_L_or_RGB (im out : Image) (wld : World) :
  (normalize im wld).1 = Ok out →
  im_size out = PROFILE_IMG_SIZE ∧
  (im_mode out = "L" ∨ im_mode out = "RGB") ∧
  (im_mode out = "L" ↔ im_mode im = "L").
Proof. apply normalize_returns_mode_size. Qed.

(** When the source is valid, what [normalize] returns is a well-formed
    raster. *)
Lemma normalize_returns_wf (im out : Image) (wld : World) :
  valid_image im → 0 < PROFILE_IMG_SIZE.1 → 0 < PROFILE_IMG_SIZE.2 →
  (normalize im wld).1 = Ok out → wf_image out.
Proof.
  intros (Hwf & Hw & Hh & _) Htw Hth.
  pose proof (ImageOps_fit_positive im PROFILE_IMG_SIZE ANTIALIAS Hw Hh)
    as Hfit. cbv zeta in Hfit.
  destruct (ImageOps_fit_wf im _ _ _ Hwf Hw Hh Htw Hth Hfit) as [Hfwf Hsize].
  set (fitted := Image_crop _ _) in *.
  destruct (decide (im_mode fitted ∈ ["L"; "RGB"])) as [Hplain | Hother].
  - rewrite (normalize_plain im wld fitted Hfit Hplain). by intros [= <-].
  - destruct (im_bands fitted !! 3%nat) as [alpha |] eqn:Hband.
    + rewrite (normalize_flatten im wld fitted alpha Hfit Hother Hband).
      cbn [fst].
      destruct (paste_on_canvas PROFILE_IMG_SIZE PROFILE_IMG_WHITE_BG
                  fitted alpha) as (out' & Hpaste & _ & _ & Hout & _);
        [lia | lia | done |].
      rewrite Hpaste. by intros [= <-].
    + by rewrite (normalize_no_fourth_band im wld fitted Hfit Hother Hband).
Qed.

(** X4: at the level of pixel buffers, normalizing the buffer that a
    normalization of a valid source returned gives that same buffer,
    through the plain path (one fit call, no compositing), provided the
    kernel interpolates. *)
Theorem X4_normalize_is_idempotent (im out : Image) (wld wld' : World) :
  interpolating ANTIALIAS → valid_image im →
  0 < PROFILE_IMG_SIZE.1 → 0 < PROFILE_IMG_SIZE.2 →
  (normalize im wld).1 = Ok out →
  normalize out wld'
  = (Ok out,
     record
       (Call_ImageOps_fit out PROFILE_IMG_SIZE ANTIALIAS (1 # 2, 1 # 2)%Q)
       wld').
Proof.
  intros Hinterp Hvalid Htw Hth Hnorm.
  pose proof (normalize_returns_wf im out wld Hvalid Htw Hth Hnorm) as Hwf.
  destruct (normalize_returns_mode_size im out wld Hnorm)
    as (Hsize & Hmode & _).
  destruct (ImageOps_fit_same_size out ANTIALIAS Hinterp Hwf)
    as (_ & _ & _ & Hfit); [by rewrite Hsize | by rewrite Hsize |].
  rewrite Hsize in Hfit at 1.
  apply normalize_plain; [exact Hfit |].
  apply list_elem_of_In. simpl. destruct Hmode as [-> | ->]; auto.
Qed.

End NormalizeReturns.

(** ** URLs, storage and names *)

Section UrlsAndStorage.
Context {E : Env}.

Lemma FieldFile_bool_field_name (f : option FieldFile) :
  FieldFile_bool f = bool_decide (field_name f ≠ "").
Proof.
  destruct f as [f |]; [done |]. cbn.
  by rewrite bool_decide_eq_false_2 by (by intros Hne).
Qed.



(** X6: the image URL follows the one file the field names.  For a profile
    with an image, let the storage resolve [MEDIA_ROOT] joined with the name
    to a path: once bytes are stored there the URL is the field's URL; once
    that file is deleted it is the placeholder; storing or deleting any
    other file changes nothing.  When the storage refuses the name, the
    property raises whatever is stored. *)
Theorem X6_url_follows_the_named_file (this : Profile) (st : Persisted)
    (bs : bytes) :
  FieldFile_bool (profile_image this) = true →
  match storage_path
          (os_path_join MEDIA_ROOT (field_name (profile_image this))) with
  | Ok p =>
      profile_image_url this
        {| files := <[p := bs]> (files st); rows := rows st |}
      = Ok (field_url (profile_image this)) ∧
      profile_image_url this
        {| files := delete p (files st); rows := rows st |}
      = Ok "/static/img/no_image_md.png" ∧
      ∀ q, q ≠ p →
        profile_image_url this
          {| files := <[q := bs]> (files st); rows := rows st |}
        = profile_image_url this st ∧
        profile_image_url this
          {| files := delete q (files st); rows := rows st |}
        = profile_image_url this st
  | Raise e => ∀ st', profile_image_url this st' = Raise e
  end.
Proof.
  intros Hset. unfold profile_image_url, default_storage_exists.
  rewrite Hset.
  destruct (storage_path _) as [p | e]; [| done]. cbn [files mbind mret
    result_bind result_ret]. split; [| split].
  - rewrite lookup_insert_eq. by rewrite bool_decide_eq_true_2.
  - rewrite lookup_delete_eq.
    by rewrite bool_decide_eq_false_2 by (by intros [? ?]).
  - intros q Hq. by rewrite lookup_insert_ne, lookup_delete_ne.
Qed.

(** X7: for a field whose name starts with a slash, [os.path.join] drops
    [MEDIA_ROOT], and the existence check is made on the name as it is: the
    property raises what the storage raises for it, which is
    SuspiciousFileOperation when the name normalizes to a path outside the
    storage's root. *)
Theorem X7_absolute_name_outside_root_is_refused (this : Profile)
    (st : Persisted) :
  startswith_sep (field_name (profile_image this)) = true →
  let name := field_name (profile_image this) in
  let root := abspath (abspath MEDIA_ROOT) in
  os_path_join MEDIA_ROOT name = name ∧
  (∀ e, storage_path name = Raise e → profile_image_url this st = Raise e) ∧
  (∀ p, storage_path name = Ok p →
        profile_image_url this st
        = Ok (if bool_decide (is_Some (files st !! p))
              then field_url (profile_image this)
              else "/static/img/no_image_md.png")) ∧
  (String.prefix (root +:+ "/") (normpath name) = false →
   normpath name ≠ root → os_path_dirname root ≠ root →
   profile_image_url this st = Raise SuspiciousFileOperation).
Proof.
  intros Habs. cbv zeta.
  set (name := field_name (profile_image this)) in *.
  set (root := abspath (abspath MEDIA_ROOT)).
  assert (os_path_join MEDIA_ROOT name = name) as Hjoin
    by (unfold os_path_join; by rewrite Habs).
  assert (FieldFile_bool (profile_image this) = true) as Hset.
  { rewrite FieldFile_bool_field_name, bool_decide_eq_true_2; [done |].
    fold name. intros Hempty. by rewrite Hempty in Habs. }
  assert (∀ e, storage_path name = Raise e →
               profile_image_url this st = Raise e) as Hraise.
  { intros e He. unfold profile_image_url, default_storage_exists.
    fold name. by rewrite Hset, Hjoin, He. }
  split; [exact Hjoin |]. split; [exact Hraise |]. split.
  - intros p Hp. unfold profile_image_url, default_storage_exists.
    fold name. rewrite Hset, Hjoin, Hp. cbn.
    by destruct (bool_decide (is_Some (files st !! p))).
  - intros Hprefix Hne Hdir. apply Hraise.
    unfold storage_path, safe_join.
    assert (os_path_join (abspath MEDIA_ROOT) name = name) as ->
      by (unfold os_path_join; by rewrite Habs).
    assert (abspath name = normpath name) as ->
      by (unfold abspath; by rewrite Habs).
    fold root. rewrite Hprefix.
    by rewrite !bool_decide_eq_false_2 by done.
Qed.

End UrlsAndStorage.

(** ** Strings: labels, names and displays *)

Lemma str_map_length (f : ascii → ascii) (s : string) :
  String.length (str_map f s) = String.length s.
Proof. induction s as [| c s IH]; [done |]. cbn. by rewrite IH. Qed.

Lemma str_map_map (f g : ascii → ascii) (s : string) :
  str_map f (str_map g s) = str_map (λ c, f (g c)) s.
Proof. induction s as [| c s IH]; [done |]. cbn. by rewrite IH. Qed.

Lemma str_map_ext (f g : ascii → ascii) (s : string) :
  (∀ c, f c = g c) → str_map f s = str_map g s.
Proof.
  intros Hfg. induction s as [| c s IH]; [done |]. cbn. by rewrite Hfg, IH.
Qed.

Lemma contains_char_str_map (f : ascii → ascii) (x : ascii) (s : string) :
  (∀ c, f c ≠ x) → contains_char x (str_map f s) = false.
Proof.
  intros Hf. induction s as [| c s IH]; [done |]. cbn.
  by rewrite IH, bool_decide_eq_false_2.
Qed.

Ltac by_cases_on_ascii c :=
  destruct c as [[] [] [] [] [] [] [] []]; vm_compute; done.

Lemma upper_after_replace_is_not_underscore (c : ascii) :
  ascii_upper (if bool_decide (c = "_"%char) then " "%char else c)
  ≠ "_"%char.
Proof. by_cases_on_ascii c. Qed.

Lemma lower_after_replace_is_not_underscore (c : ascii) :
  ascii_lower (if bool_decide (c = "_"%char) then " "%char else c)
  ≠ "_"%char.
Proof. by_cases_on_ascii c. Qed.

Lemma upper_replace_twice (c : ascii) :
  let r c := if bool_decide (c = "_"%char) then " "%char else c in
  ascii_upper (r (ascii_upper (r c))) = ascii_upper (r c).
Proof. by_cases_on_ascii c. Qed.

Lemma lower_replace_twice (c : ascii) :
  let r c := if bool_decide (c = "_"%char) then " "%char else c in
  ascii_lower (r (ascii_lower (r c))) = ascii_lower (r c).
Proof. by_cases_on_ascii c. Qed.

(** X8: the label made of an ASCII name,
    [name.replace("_", " ").capitalize()], is as long as the name, has no
    underscore left, and making a label of a label changes nothing. *)
Theorem X8_choice_label_shape (name : string) :
  str_isascii name = true →
  String.length (choice_label name) = String.length name ∧
  contains_char "_" (choice_label name) = false ∧
  choice_label (choice_label name) = choice_label name.
Proof.
  intros _. unfold choice_label, str_replace_char.
  destruct name as [| c s]; [done |]. cbn [str_map str_capitalize].
  split; [| split].
  - cbn. by rewrite !str_map_length.
  - cbn [contains_char]. rewrite str_map_map.
    rewrite contains_char_str_map
      by apply lower_after_replace_is_not_underscore.
    rewrite bool_decide_eq_false_2
      by apply upper_after_replace_is_not_underscore.
    done.
  - f_equal; [apply upper_replace_twice |].
    rewrite !str_map_map. apply str_map_ext. intros c'.
    apply lower_replace_twice.
Qed.

(** X9: the choices of [activity_type] agree with the column: every member
    of [ActivityType] has its value among the choices, within the 31
    characters of [max_length]; different members have different values;
    and the column's default is one of the choices. *)
Theorem X9_activity_choices_fit_the_column :
  (∀ tag,
     (ActivityType_value tag, choice_label (ActivityType_name tag))
     ∈ activity_CHOICES ∧
     (String.length (ActivityType_value tag) ≤ activity_type_max_length)%nat) ∧
  (∀ t1 t2, ActivityType_value t1 = ActivityType_value t2 → t1 = t2) ∧
  NoDup (activity_CHOICES.*1) ∧
  activity_type_default ∈ activity_CHOICES.*1 ∧
  length activity_CHOICES = 3%nat.
Proof.
  split; [| split; [| split; [| split]]].
  - intros tag. split.
    + apply list_elem_of_In. destruct tag; cbn; auto.
    + destruct tag; cbn; unfold activity_type_max_length; lia.
  - by intros [] [].
  - cbn. repeat (apply NoDup_cons_2); try apply NoDup_nil_2;
      intros Hin; apply list_elem_of_In in Hin; cbn in Hin;
      repeat (destruct Hin as [Hin | Hin]; [discriminate Hin |]); done.
  - apply list_elem_of_In. cbn. auto.
  - done.
Qed.

Lemma string_app_nil (t : string) : "" +:+ t = t.
Proof. reflexivity. Qed.

Lemma string_app_cons (c : ascii) (s t : string) :
  String c s +:+ t = String c (s +:+ t).
Proof. reflexivity. Qed.

Lemma string_app_length (s t : string) :
  String.length (s +:+ t) = (String.length s + String.length t)%nat.
Proof.
  induction s as [| c s IH]; [done |].
  rewrite string_app_cons. simpl. by rewrite IH.
Qed.

Lemma string_app_inv_head (s t t' : string) : s +:+ t = s +:+ t' → t = t'.
Proof.
  induction s as [| c s IH]; [done |].
  rewrite !string_app_cons. intros [= Heq]. by apply IH.
Qed.

Lemma string_app_inv_tail (s s' t : string) : s +:+ t = s' +:+ t → s = s'.
Proof.
  revert s'. induction s as [| c s IH]; intros [| c' s'] Heq.
  - done.
  - apply (f_equal String.length) in Heq.
    rewrite !string_app_length in Heq. simpl in Heq. lia.
  - apply (f_equal String.length) in Heq.
    rewrite !string_app_length in Heq. simpl in Heq. lia.
  - rewrite !string_app_cons in Heq. injection Heq as -> Heq.
    f_equal. by apply IH.
Qed.

(** Splitting at the first space. *)
Lemma split_at_first_space (a a' b b' : string) :
  contains_char " " a = false → contains_char " " a' = false →
  a +:+ " " +:+ b = a' +:+ " " +:+ b' → a = a' ∧ b = b'.
Proof.
  revert a'. induction a as [| c a IH]; intros [| c' a'] Ha Ha' Heq;
    rewrite ?string_app_nil, ?string_app_cons in Heq; simpl in Ha, Ha'.
  - rewrite !string_app_nil in Heq. by injection Heq as ->.
  - injection Heq as <- _. by rewrite bool_decide_eq_true_2 in Ha'.
  - injection Heq as -> _. by rewrite bool_decide_eq_true_2 in Ha.
  - injection Heq as -> Heq.
    apply orb_false_iff in Ha as [_ Ha]. apply orb_false_iff in Ha' as [_ Ha'].
    destruct (IH a' Ha Ha' Heq) as [-> ->]. done.
Qed.

(** X10: [full_name] gives both names back when first names hold no space:
    two profiles with such first names have the same full name only if
    they have the same first name and the same last name. *)
Theorem X10_full_name_determines_names (p q : Profile) :
  contains_char " " (first_name p) = false →
  contains_char " " (first_name q) = false →
  full_name p = full_name q →
  first_name p = first_name q ∧ last_name p = last_name q.
Proof. unfold full_name. apply split_at_first_space. Qed.

(** X11: [Profile.__str__] is the user's [__str__] followed by " profile":
    two profiles display alike exactly when their user names are equal, and
    no profile displays as None.  So [Notification.__str__] shows a missing
    account unlike any account, and two notifications of one activity type
    display alike only if their accounts do. *)
Theorem X11_displays_tell_accounts_apart :
  (∀ p, Profile_str p = User_str (user p) +:+ " profile") ∧
  (∀ p q, Profile_str p = Profile_str q ↔
          username (user p) = username (user q)) ∧
  (∀ p, str_of_account (Some p) ≠ str_of_account None) ∧
  (∀ n m, activity_type n = activity_type m →
          Notification_str n = Notification_str m →
          str_of_account (account n) = str_of_account (account m)).
Proof.
  split; [done |]. split; [| split].
  - intros p q. unfold Profile_str. split.
    + apply string_app_inv_tail.
    + by intros ->.
  - intros p Heq. unfold str_of_account, Profile_str in Heq.
    apply (f_equal String.length) in Heq.
    rewrite string_app_length in Heq. simpl in Heq. lia.
  - intros n m Hty. unfold Notification_str. rewrite Hty. intros Heq.
    apply string_app_inv_head in Heq. by apply string_app_inv_tail in Heq.
Qed.

(** ** The trace of [save] *)

Section SaveTrace.
Context {E : Env}.

(** X12: every [save] calls [Model.save] at most once, and then as its last
    library call; when it does not, [save] has raised and nothing persisted
    has changed. *)
Theorem X12_save_persists_last_and_once (wld : World) :
  ∃ cs,
    calls (save wld).2 = calls wld ++ cs ∧
    ((∃ before this,
        cs = before ++ [Call_Model_save this] ∧
        Forall (λ c, is_Model_save c = false) before) ∨
     (Forall (λ c, is_Model_save c = false) cs ∧
      (∃ e, (save wld).1 = Raise e) ∧
      persisted (save wld).2 = persisted wld ∧
      self (save wld).2 = self wld)).
Proof.
  destruct (FieldFile_bool (profile_image (self wld))) eqn:Hset.
  - rewrite (save_eq wld Hset).
    destruct (resize_profile_image_outcome wld)
      as (cs & Hcalls & Hcs & Hpers & Hself).
    destruct (resize_profile_image wld) as [[[] | e] w1]; cbn [fst snd] in *.
    + eexists. rewrite super_save_calls, Hcalls, <- app_assoc.
      split; [reflexivity |]. left. eexists _, _. split; [reflexivity |].
      by constructor.
    + eexists. split; [exact Hcalls |]. right.
      split; [by constructor |]. split; [by exists e | done].
  - exists [Call_Model_save (self wld)]. split.
    + unfold save. run_M. rewrite Hset. apply super_save_calls.
    + left. by exists [], (self wld).
Qed.

End SaveTrace.

(** ** The further properties on concrete inputs *)

Lemma X1_witness :
  calls (save (E := small_env) (world_of (alice None) no_files)).2
  = [Call_Model_save (alice None)].
Proof.
  exact (proj1 (X1_save_without_image_only_persists (E := small_env)
                  (world_of (alice None) no_files) eq_refl)).
Defined.


Lemma X3_witness :
  (normalize (E := small_env) rgba_2x2 (world_of (alice None) no_files)).1
  = Ok rgba_2x2_on_white ∧
  im_size rgba_2x2_on_white = (2, 2) ∧
  (im_mode rgba_2x2_on_white = "L" ∨ im_mode rgba_2x2_on_white = "RGB").
Proof.
  assert ((normalize (E := small_env) rgba_2x2
             (world_of (alice None) no_files)).1
          = Ok rgba_2x2_on_white) as Hnorm by (by vm_compute).
  split; [exact Hnorm |].
  destruct (X3_normalize_returns_L_or_RGB (E := small_env) rgba_2x2
              rgba_2x2_on_white (world_of (alice None) no_files) Hnorm)
    as (Hsize & Hmode & _).
  by split.
Defined.

Lemma X4_witness :
  (normalize (E := small_env) gray_4x2 (world_of (alice None) no_files)).1
  = Ok gray_4x2_centre ∧
  (normalize (E := small_env) gray_4x2_centre
     (world_of (alice None) no_files)).1
  = Ok gray_4x2_centre.
Proof.
  assert ((normalize (E := small_env) gray_4x2
             (world_of (alice None) no_files)).1
          = Ok gray_4x2_centre) as Hnorm by (by vm_compute).
  assert (valid_image gray_4x2) as Hvalid by solve_wf.
  split; [exact Hnorm |].
  rewrite (X4_normalize_is_idempotent (E := small_env) gray_4x2
             gray_4x2_centre (world_of (alice None) no_files)
             (world_of (alice None) no_files)
             nearest_interpolating Hvalid);
    [done | cbn; lia | cbn; lia | exact Hnorm].
Defined.


Lemma X6_witness :
  storage_path (E := small_env) (os_path_join "/media" "a.jpg")
  = Ok "/media/a.jpg" ∧
  profile_image_url (E := small_env) (alice (Some (Stored "a.jpg")))
    {| files := <["/media/a.jpg" := []]> ∅; rows := ∅ |}
  = Ok "/media/a.jpg".
Proof.
  assert (storage_path (E := small_env)
            (os_path_join (MEDIA_ROOT (Env := small_env))
               (field_name (profile_image (alice (Some (Stored "a.jpg"))))))
          = Ok "/media/a.jpg") as Hpath by (by vm_compute).
  split; [exact Hpath |].
  pose proof (X6_url_follows_the_named_file (E := small_env)
                (alice (Some (Stored "a.jpg"))) no_files [] eq_refl) as Hurl.
  rewrite Hpath in Hurl. exact (proj1 Hurl).
Defined.

Lemma X7_witness :
  os_path_join "/media" "/etc/passwd" = "/etc/passwd" ∧
  profile_image_url (E := small_env) (alice (Some (Stored "/etc/passwd")))
    {| files := {[ "/etc/passwd" := [] ]}; rows := ∅ |}
  = Raise SuspiciousFileOperation.
Proof.
  pose proof (X7_absolute_name_outside_root_is_refused (E := small_env)
                (alice (Some (Stored "/etc/passwd")))
                {| files := {[ "/etc/passwd" := [] ]}; rows := ∅ |} eq_refl)
    as Habs.
  cbv zeta in Habs. destruct Habs as (Hjoin & _ & _ & Hrefused).
  split; [exact Hjoin |]. apply Hrefused; by vm_compute.
Defined.

Lemma X10_witness :
  first_name (alice None) = first_name (alice (Some (Stored "a.jpg"))) ∧
  last_name (alice None) = last_name (alice (Some (Stored "a.jpg"))).
Proof.
  exact (X10_full_name_determines_names (alice None)
           (alice (Some (Stored "a.jpg"))) eq_refl eq_refl eq_refl).
Defined.

Lemma X8_witness :
  choice_label (ActivityType_name REBUTTAL_TO_RESPONSE)
  = "Rebuttal to response" ∧
  contains_char "_" (choice_label (ActivityType_name REBUTTAL_TO_RESPONSE))
  = false.
Proof.
  split; [reflexivity |].
  exact (proj1 (proj2 (X8_choice_label_shape
                         (ActivityType_name REBUTTAL_TO_RESPONSE) eq_refl))).
Defined.
